(** * BARKPlayer music backend: decoder thread and transport controller

    A shallow embedding of [src/music_backend.cpp].  The control thread
    (class [MusicBackend] and the control-side half of class [Decoder]) is
    written in a small state-and-trace monad: the state is the object's
    fields, the trace is the list of calls made into GStreamer, GLib and
    pthreads.  What those libraries answer (a pipeline handle or NULL, a
    clock reading, a thread id or an error) is passed to each method as an
    explicit environment argument.  The worker thread ([Decoder::decode_loop])
    is a function from a script of library answers to its own trace. *)

From Stdlib Require Import ZArith List String Bool Lia.
From Stdlib Require Import SpecFloat.
Import ListNotations.
Local Open Scope string_scope.
Local Open Scope list_scope.
Local Open Scope Z_scope.

(** ** Machine integers *)

Module CInt.

(** [gint64]: two's complement, 64 bits. *)
Definition to_gint64 (z : Z) : Z := (z + 2 ^ 63) mod 2 ^ 64 - 2 ^ 63.

(** [guint64] / [GstClockTime]. *)
Definition to_guint64 (z : Z) : Z := z mod 2 ^ 64.

(** [int], 32 bits. *)
Definition to_int (z : Z) : Z := (z + 2 ^ 31) mod 2 ^ 32 - 2 ^ 31.

Definition is_gint64 (z : Z) : Prop := - 2 ^ 63 <= z < 2 ^ 63.
Definition is_int (z : Z) : Prop := - 2 ^ 31 <= z < 2 ^ 31.
Definition is_uint32 (z : Z) : Prop := 0 <= z < 2 ^ 32.

(** [errno] value of a write on a pipe whose reader is gone. *)
Definition EPIPE : Z := 32.

End CInt.

(** ** The GStreamer constants the backend uses *)

Module Gst.

(** [GST_SECOND]: nanoseconds per second, a [gint64] constant. *)
Definition GST_SECOND : Z := 1000000000.

(** [GST_CLOCK_TIME_NONE] is [(GstClockTime) -1]. *)
Definition GST_CLOCK_TIME_NONE : Z := 2 ^ 64 - 1.

Definition GST_CLOCK_TIME_IS_VALID (t : Z) : bool :=
  negb (t =? GST_CLOCK_TIME_NONE).

Inductive GstState :=
| GST_STATE_NULL
| GST_STATE_READY
| GST_STATE_PAUSED
| GST_STATE_PLAYING.

(** The bus messages [bus_callback_func] switches on. *)
Inductive GstMessage :=
| GST_MESSAGE_EOS
| GST_MESSAGE_ERROR (message : string)
| GST_MESSAGE_OTHER.

End Gst.
Import Gst.

(** ** Calls into the outside world

    Handles (pipelines, threads, callbacks, file descriptors) are integers.
    Log events carry the format string of the source, not the formatted
    text. *)

Inductive Event :=
| EvPrint (fmt : string)                    (* g_print *)
| EvPrintErr (fmt : string)                 (* g_printerr *)
| EvPerror (prefix : string)                (* perror *)
| EvParseLaunch (rate : Z)                  (* gst_parse_launch *)
| EvBusAddWatch (pipe : Z) (id : Z)         (* gst_bus_add_watch *)
| EvSourceRemove (id : Z)                   (* g_source_remove *)
| EvSetState (pipe : Z) (st : GstState)     (* gst_element_set_state *)
| EvUnref (pipe : Z)                        (* gst_object_unref on the pipeline *)
| EvThreadCreate (tid : Z)                  (* pthread_create, success *)
| EvThreadJoin (tid : Z)                    (* pthread_join *)
| EvEosCallback (cb : Z) (user_data : Z)    (* on_eos_callback(eos_user_data) *)
| EvMp4Open                                 (* mp4read_open *)
| EvMp4Seek (frame : Z)                     (* mp4read_seek *)
| EvMp4Frame                                (* mp4read_frame *)
| EvMp4Close                                (* mp4read_close *)
| EvNeAACDecOpen
| EvNeAACDecInit2
| EvNeAACDecDecode
| EvNeAACDecClose
| EvOpenPipe                                (* open(PIPE_PATH, O_WRONLY) *)
| EvWrite (fd : Z) (nbytes : Z)             (* write(fd, sample_buffer, to_write) *)
| EvClose (fd : Z).                         (* close(fd) *)

Definition is_eos_callback (e : Event) : bool :=
  match e with EvEosCallback _ _ => true | _ => false end.

(** An error report: [g_printerr] or [perror]. *)
Definition is_error_log (e : Event) : bool :=
  match e with EvPrintErr _ | EvPerror _ => true | _ => false end.

Definition count (p : Event -> bool) (tr : list Event) : nat :=
  List.length (List.filter p tr).

Definition PIPE_PATH : string := "/tmp/kinamp_audio_pipe".

(** ** A state-and-trace monad

    [M S A] is a computation over an object of type [S] that returns an [A]
    and appends to the trace of outside calls. *)

Definition M (S A : Type) : Type := S -> A * S * list Event.

Definition ret {S A} (a : A) : M S A := fun s => (a, s, []).

Definition bind {S A B} (c : M S A) (k : A -> M S B) : M S B :=
  fun s =>
    let '(a, s1, t1) := c s in
    let '(b, s2, t2) := k a s1 in
    (b, s2, t1 ++ t2).

Definition gets {S A} (f : S -> A) : M S A := fun s => (f s, s, []).
Definition modify {S} (f : S -> S) : M S unit := fun s => (tt, f s, []).
Definition emit {S} (e : Event) : M S unit := fun s => (tt, s, [e]).

(** [when b c]: an [if] without [else]. *)
Definition when {S} (b : bool) (c : M S unit) : M S unit :=
  if b then c else ret tt.

Definition result_of {S A} (r : A * S * list Event) : A := fst (fst r).
Definition state_of {S A} (r : A * S * list Event) : S := snd (fst r).
Definition trace_of {S A} (r : A * S * list Event) : list Event := snd r.

Declare Scope prog_scope.
Delimit Scope prog_scope with prog.
Notation "x <- c ;; k" := (bind c (fun x => k))
  (at level 61, c at next level, right associativity) : prog_scope.
Notation "c ;; k" := (bind c (fun _ => k))
  (at level 61, right associativity) : prog_scope.
Local Open Scope prog_scope.

(** ** The demuxer's global [mp4config], as far as the backend reads it

    [mpeg4/mp4read.h] is not among the sources; the fields below are the
    ones [music_backend.cpp] reads, with the unsigned 32-bit counters as
    non-negative integers.  A null [char*] or data pointer is [None]. *)

Module Mp4.

Record config := mk {
  meta_title : option string;
  meta_artist : option string;
  meta_album : option string;
  cover_art : option (list Byte.byte);   (* data pointer with its size *)
  samplerate : Z;                        (* declared by the container *)
  samples : Z;                           (* total sound samples *)
  frame_nsamples : Z                     (* frame.nsamples: number of frames *)
}.

Definition well_typed (c : config) : Prop :=
  CInt.is_uint32 (samplerate c) /\ CInt.is_uint32 (samples c) /\
  CInt.is_uint32 (frame_nsamples c).

End Mp4.

(** ** class Decoder *)

Module Decoder.

Record t := mk {
  current_filepath : string;
  start_time : Z;            (* int *)
  stop_flag : bool;
  running : bool;
  thread_id : Z              (* pthread_t; 0 when no thread *)
}.

Definition set_current_filepath v d :=
  mk v (start_time d) (stop_flag d) (running d) (thread_id d).
Definition set_start_time v d :=
  mk (current_filepath d) v (stop_flag d) (running d) (thread_id d).
Definition set_stop_flag v d :=
  mk (current_filepath d) (start_time d) v (running d) (thread_id d).
Definition set_running v d :=
  mk (current_filepath d) (start_time d) (stop_flag d) v (thread_id d).
Definition set_thread_id v d :=
  mk (current_filepath d) (start_time d) (stop_flag d) (running d) v.

(** [Decoder::Decoder()].  The fifo is made by the constructor; the
    string and [start_time] members start empty and unset (modelled 0). *)
Definition init : t := mk "" 0 false false 0.

(** [Decoder::stop()] *)
Definition stop : M t unit :=
  r <- gets running ;;
  if negb r then ret tt
  else
    modify (set_stop_flag true) ;;
    tid <- gets thread_id ;;
    when (negb (tid =? 0))
      (emit (EvThreadJoin tid) ;;
       modify (set_thread_id 0)) ;;
    modify (set_running false).

(** [Decoder::start(filepath, start_time)].  [created] is what
    [pthread_create] answers: [Some tid] on success (the id it stores in
    [thread_id]), [None] on failure. *)
Definition start (filepath : string) (start_time : Z) (created : option Z)
  : M t bool :=
  r <- gets running ;;
  when r stop ;;
  modify (set_current_filepath filepath) ;;
  modify (set_start_time start_time) ;;
  modify (set_stop_flag false) ;;
  modify (set_running true) ;;
  match created with
  | Some tid =>
      emit (EvThreadCreate tid) ;;
      modify (set_thread_id tid) ;;
      ret true
  | None =>
      emit (EvPerror "Decoder: Failed to create thread") ;;
      modify (set_running false) ;;
      ret false
  end.

(** [Decoder::is_running()] *)
Definition is_running (d : t) : bool := running d.

(** *** The worker thread

    [double] is IEEE 754 binary64, in the Standard Library's executable
    specification. *)

Definition prec : Z := 53.
Definition emax : Z := 1024.

(** Conversion of an integer to [double], rounded to nearest even. *)
Definition double_of_Z (z : Z) : spec_float :=
  binary_normalize prec emax z 0 false.

(** The integer part of a finite [double], truncated towards zero. *)
Definition double_trunc (f : spec_float) : option Z :=
  match f with
  | S754_zero _ => Some 0
  | S754_finite s m e =>
      Some (cond_Zopp s
              (match e with
               | Z0 => Zpos m
               | Zpos _ => Zpos m * 2 ^ e
               | Zneg _ => Zpos m / 2 ^ (- e)
               end))
  | S754_infinity _ | S754_nan => None
  end.

Section Worker.

(** Width of [unsigned long] on the target. *)
Variable ULONG_BITS : Z.

(** The cast [(unsigned long) f]: defined only when the truncated value
    fits. *)
Definition double_to_ulong (f : spec_float) : option Z :=
  match double_trunc f with
  | Some z => if (0 <=? z) && (z <? 2 ^ ULONG_BITS) then Some z else None
  | None => None
  end.

(** [samples_per_frame] as computed before seeking. *)
Definition samples_per_frame (cfg : Mp4.config) : Z :=
  if (0 <? Mp4.frame_nsamples cfg) && (0 <? Mp4.samples cfg)
  then Mp4.samples cfg / Mp4.frame_nsamples cfg
  else 1024.

(** [(unsigned long)((double)start_time * samplerate / samples_per_frame)] *)
Definition target_frame (start_time samplerate samples_per_frame : Z)
  : option Z :=
  double_to_ulong
    (SFdiv prec emax
       (SFmul prec emax (double_of_Z start_time) (double_of_Z samplerate))
       (double_of_Z samples_per_frame)).

(** How a run of the worker ends: it returns with a trace, or the cast
    above has no defined value, or the script of answers is used up
    while the frame loop is still running. *)
Inductive Outcome :=
| Done (tr : list Event)
| Undefined
| Starved.

Definition prepend (tr : list Event) (o : Outcome) : Outcome :=
  match o with
  | Done tr' => Done (tr ++ tr')
  | Undefined => Undefined
  | Starved => Starved
  end.

(** The "Seek if requested" block.  [seek_ok frame] tells whether
    [mp4read_seek(frame)] returns 0. *)
Definition seek_if_requested (d : t) (cfg : Mp4.config) (samplerate : Z)
    (seek_ok : Z -> bool) : Outcome :=
  if 0 <? start_time d then
    match target_frame (start_time d) samplerate (samples_per_frame cfg) with
    | None => Undefined
    | Some target =>
        if target <? Mp4.frame_nsamples cfg then
          if seek_ok target
          then Done [EvMp4Seek target;
                     EvPrint "Decoder: Seeked to %d seconds (frame %lu)\n"]
          else Done [EvMp4Seek target;
                     EvPrintErr "Decoder: Failed to seek to frame %lu\n"]
        else Done []
    end
  else Done [EvMp4Seek 0].

(** The answers one iteration of the frame loop gets: the value of
    [stop_flag] read by the loop condition, whether [mp4read_frame]
    returns 0, the [error] and [samples] fields of [frameInfo], the
    result of [write] and the [errno] it leaves. *)
Record FrameEnv := mkFrame {
  stop_seen : bool;
  frame_read : bool;
  frame_error : Z;
  frame_samples : Z;
  written : Z;
  write_errno : Z
}.

Inductive Ctl := Continue | Break.

(** [x] as an [unsigned long], and as a [size_t], which has the same
    width. *)
Definition to_ulong (x : Z) : Z := x mod 2 ^ ULONG_BITS.

(** [x] as an [ssize_t]: the same width, two's complement. *)
Definition to_ssize_t (x : Z) : Z :=
  (x + 2 ^ (ULONG_BITS - 1)) mod 2 ^ ULONG_BITS - 2 ^ (ULONG_BITS - 1).

(** The byte count [write] receives for a frame of [samples] samples:
    [frameInfo.samples * 2] is multiplied in [unsigned long], kept in the
    [ssize_t to_write] and passed as the [size_t] third argument. *)
Definition write_count (samples : Z) : Z :=
  let to_write := to_ssize_t (to_ulong (samples * 2)) in
  to_ulong to_write.

(** The loop condition followed by one pass through the body. *)
Definition frame_step (fd : Z) (fe : FrameEnv) : Ctl * list Event :=
  if stop_seen fe then (Break, [])
  else if negb (frame_read fe) then (Break, [EvMp4Frame])
  else if 0 <? frame_error fe then
    (Continue, [EvMp4Frame; EvNeAACDecDecode;
                EvPrintErr "Decoder: FAAD Warning: %s\n"])
  else if 0 <? frame_samples fe then
    let nbytes := write_count (frame_samples fe) in
    if written fe =? -1 then
      if write_errno fe =? CInt.EPIPE then
        (* Reader closed pipe, expected during stop *)
        (Break, [EvMp4Frame; EvNeAACDecDecode; EvWrite fd nbytes])
      else
        (Break, [EvMp4Frame; EvNeAACDecDecode; EvWrite fd nbytes;
                 EvPerror "Decoder: write error"])
    else (Continue, [EvMp4Frame; EvNeAACDecDecode; EvWrite fd nbytes])
  else (Continue, [EvMp4Frame; EvNeAACDecDecode]).

(** [while (!stop_flag) { ... }] over the script of answers. *)
Fixpoint frame_loop (fd : Z) (script : list FrameEnv) : Outcome :=
  match script with
  | [] => Starved
  | fe :: rest =>
      match frame_step fd fe with
      | (Break, tr) => Done tr
      | (Continue, tr) => prepend tr (frame_loop fd rest)
      end
  end.

(** Everything the libraries answer during one run of the worker. *)
Record LoopEnv := mkLoop {
  opened : option Mp4.config;   (* mp4read_open: None when non-zero *)
  faad_open : bool;             (* NeAACDecOpen gave a handle *)
  init2 : option (Z * Z);       (* NeAACDecInit2: samplerate, channels *)
  seek_ok : Z -> bool;          (* mp4read_seek(frame) == 0 *)
  pipe_fd : option Z;           (* open(PIPE_PATH): None for -1 *)
  frames : list FrameEnv
}.

(** [Decoder::decode_loop()] *)
Definition decode_loop (d : t) (env : LoopEnv) : Outcome :=
  prepend [EvPrint "Decoder: Starting for %s\n"; EvMp4Open]
    match opened env with
    | None =>
        Done [EvPrintErr "Decoder: Failed to open file with mp4read: %s\n"]
    | Some cfg =>
        prepend [EvNeAACDecOpen]
          (if negb (faad_open env) then
             Done [EvPrintErr "Decoder: Failed to open FAAD2 decoder\n";
                   EvMp4Close]
           else
             prepend [EvNeAACDecInit2]
               match init2 env with
               | None =>
                   Done [EvPrintErr "Decoder: Failed to initialize FAAD2 with ASC\n";
                         EvNeAACDecClose; EvMp4Close]
               | Some (samplerate, channels) =>
                   prepend [EvPrint "Decoder: Starting for %d %d\n"]
                     match seek_if_requested d cfg samplerate (seek_ok env) with
                     | Done seek_trace =>
                         prepend (seek_trace ++ [EvOpenPipe])
                           match pipe_fd env with
                           | None =>
                               Done [EvPerror "Decoder: Failed to open pipe";
                                     EvNeAACDecClose; EvMp4Close]
                           | Some fd =>
                               match frame_loop fd (frames env) with
                               | Done loop_trace =>
                                   Done (loop_trace ++
                                         [EvClose fd; EvNeAACDecClose; EvMp4Close;
                                          EvPrint "Decoder: Thread exiting.\n"])
                               | other => other
                               end
                           end
                     | other => other
                     end
               end)
    end.

End Worker.

End Decoder.


(** ** class MusicBackend *)

Module MusicBackend.

Record t := mk {
  is_playing : bool;
  is_paused : bool;
  pipeline : option Z;            (* GstElement*, NULL is None *)
  bus : option Z;                 (* GstBus* *)
  bus_watch_id : Z;               (* guint *)
  stopping : bool;
  on_eos_callback : option Z;     (* EosCallback, NULL is None *)
  eos_user_data : Z;
  last_position : Z;              (* gint64 *)
  current_samplerate : Z;         (* int *)
  total_duration : Z;             (* gint64 *)
  current_filepath_str : string;
  meta_title : string;
  meta_artist : string;
  meta_album : string;
  cover_art : list Byte.byte;
  decoder : Decoder.t
}.

Definition set_is_playing v s :=
  mk v (is_paused s) (pipeline s) (bus s) (bus_watch_id s) (stopping s)
     (on_eos_callback s) (eos_user_data s) (last_position s)
     (current_samplerate s) (total_duration s) (current_filepath_str s)
     (meta_title s) (meta_artist s) (meta_album s) (cover_art s) (decoder s).
Definition set_is_paused v s :=
  mk (is_playing s) v (pipeline s) (bus s) (bus_watch_id s) (stopping s)
     (on_eos_callback s) (eos_user_data s) (last_position s)
     (current_samplerate s) (total_duration s) (current_filepath_str s)
     (meta_title s) (meta_artist s) (meta_album s) (cover_art s) (decoder s).
Definition set_pipeline v s :=
  mk (is_playing s) (is_paused s) v (bus s) (bus_watch_id s) (stopping s)
     (on_eos_callback s) (eos_user_data s) (last_position s)
     (current_samplerate s) (total_duration s) (current_filepath_str s)
     (meta_title s) (meta_artist s) (meta_album s) (cover_art s) (decoder s).
Definition set_bus v s :=
  mk (is_playing s) (is_paused s) (pipeline s) v (bus_watch_id s) (stopping s)
     (on_eos_callback s) (eos_user_data s) (last_position s)
     (current_samplerate s) (total_duration s) (current_filepath_str s)
     (meta_title s) (meta_artist s) (meta_album s) (cover_art s) (decoder s).
Definition set_bus_watch_id v s :=
  mk (is_playing s) (is_paused s) (pipeline s) (bus s) v (stopping s)
     (on_eos_callback s) (eos_user_data s) (last_position s)
     (current_samplerate s) (total_duration s) (current_filepath_str s)
     (meta_title s) (meta_artist s) (meta_album s) (cover_art s) (decoder s).
Definition set_stopping v s :=
  mk (is_playing s) (is_paused s) (pipeline s) (bus s) (bus_watch_id s) v
     (on_eos_callback s) (eos_user_data s) (last_position s)
     (current_samplerate s) (total_duration s) (current_filepath_str s)
     (meta_title s) (meta_artist s) (meta_album s) (cover_art s) (decoder s).
Definition set_on_eos_callback v s :=
  mk (is_playing s) (is_paused s) (pipeline s) (bus s) (bus_watch_id s)
     (stopping s) v (eos_user_data s) (last_position s)
     (current_samplerate s) (total_duration s) (current_filepath_str s)
     (meta_title s) (meta_artist s) (meta_album s) (cover_art s) (decoder s).
Definition set_eos_user_data v s :=
  mk (is_playing s) (is_paused s) (pipeline s) (bus s) (bus_watch_id s)
     (stopping s) (on_eos_callback s) v (last_position s)
     (current_samplerate s) (total_duration s) (current_filepath_str s)
     (meta_title s) (meta_artist s) (meta_album s) (cover_art s) (decoder s).
Definition set_last_position v s :=
  mk (is_playing s) (is_paused s) (pipeline s) (bus s) (bus_watch_id s)
     (stopping s) (on_eos_callback s) (eos_user_data s) v
     (current_samplerate s) (total_duration s) (current_filepath_str s)
     (meta_title s) (meta_artist s) (meta_album s) (cover_art s) (decoder s).
Definition set_current_samplerate v s :=
  mk (is_playing s) (is_paused s) (pipeline s) (bus s) (bus_watch_id s)
     (stopping s) (on_eos_callback s) (eos_user_data s) (last_position s)
     v (total_duration s) (current_filepath_str s)
     (meta_title s) (meta_artist s) (meta_album s) (cover_art s) (decoder s).
Definition set_total_duration v s :=
  mk (is_playing s) (is_paused s) (pipeline s) (bus s) (bus_watch_id s)
     (stopping s) (on_eos_callback s) (eos_user_data s) (last_position s)
     (current_samplerate s) v (current_filepath_str s)
     (meta_title s) (meta_artist s) (meta_album s) (cover_art s) (decoder s).
Definition set_current_filepath_str v s :=
  mk (is_playing s) (is_paused s) (pipeline s) (bus s) (bus_watch_id s)
     (stopping s) (on_eos_callback s) (eos_user_data s) (last_position s)
     (current_samplerate s) (total_duration s) v
     (meta_title s) (meta_artist s) (meta_album s) (cover_art s) (decoder s).
Definition set_meta_title v s :=
  mk (is_playing s) (is_paused s) (pipeline s) (bus s) (bus_watch_id s)
     (stopping s) (on_eos_callback s) (eos_user_data s) (last_position s)
     (current_samplerate s) (total_duration s) (current_filepath_str s)
     v (meta_artist s) (meta_album s) (cover_art s) (decoder s).
Definition set_meta_artist v s :=
  mk (is_playing s) (is_paused s) (pipeline s) (bus s) (bus_watch_id s)
     (stopping s) (on_eos_callback s) (eos_user_data s) (last_position s)
     (current_samplerate s) (total_duration s) (current_filepath_str s)
     (meta_title s) v (meta_album s) (cover_art s) (decoder s).
Definition set_meta_album v s :=
  mk (is_playing s) (is_paused s) (pipeline s) (bus s) (bus_watch_id s)
     (stopping s) (on_eos_callback s) (eos_user_data s) (last_position s)
     (current_samplerate s) (total_duration s) (current_filepath_str s)
     (meta_title s) (meta_artist s) v (cover_art s) (decoder s).
Definition set_cover_art v s :=
  mk (is_playing s) (is_paused s) (pipeline s) (bus s) (bus_watch_id s)
     (stopping s) (on_eos_callback s) (eos_user_data s) (last_position s)
     (current_samplerate s) (total_duration s) (current_filepath_str s)
     (meta_title s) (meta_artist s) (meta_album s) v (decoder s).
Definition set_decoder v s :=
  mk (is_playing s) (is_paused s) (pipeline s) (bus s) (bus_watch_id s)
     (stopping s) (on_eos_callback s) (eos_user_data s) (last_position s)
     (current_samplerate s) (total_duration s) (current_filepath_str s)
     (meta_title s) (meta_artist s) (meta_album s) (cover_art s) v.

(** A method call on the owned [decoder]. *)
Definition on_decoder {A} (c : M Decoder.t A) : M t A :=
  fun s =>
    let '(a, d, tr) := c (decoder s) in
    (a, set_decoder d s, tr).

(** [MusicBackend::MusicBackend()] *)
Definition init : t :=
  mk false false None None 0 false None 0 0 44100 0 "" "" "" "" []
     Decoder.init.

(** [is_shutting_down()] *)
Definition is_shutting_down (s : t) : bool := stopping s.

(** [get_current_filepath()] *)
Definition get_current_filepath (s : t) : string := current_filepath_str s.

(** [set_eos_callback(callback, user_data)] *)
Definition set_eos_callback (callback : option Z) (user_data : Z) : M t unit :=
  modify (set_on_eos_callback callback) ;;
  modify (set_eos_user_data user_data).

(** What the pipeline's clock answers: [gst_element_get_clock] gives NULL
    ([None]) or a clock, whose [gst_clock_get_time] is the payload;
    [base_time] is [gst_element_get_base_time]. *)
Record ClockEnv := mkClock {
  clock : option Z;
  base_time : Z
}.

(** [get_duration()]; [query] is the answer of
    [gst_element_query_duration], [None] when it returns FALSE. *)
Definition get_duration (query : option Z) (s : t) : Z :=
  if 0 <? total_duration s then total_duration s
  else
    match pipeline s with
    | Some _ =>
        match query with
        | Some duration => duration
        | None => 0
        end
    | None => 0
    end.

(** [(gint64)(current_time - base_time)]: an unsigned subtraction, then the
    cast. *)
Definition running_time (current_time base_time : Z) : Z :=
  CInt.to_gint64 (CInt.to_guint64 (current_time - base_time)).

(** [get_position()] *)
Definition get_position (clk : ClockEnv) (s : t) : Z :=
  if is_paused s then last_position s
  else
    match pipeline s, is_playing s with
    | Some _, true =>
        match clock clk with
        | Some current_time =>
            let base_time := base_time clk in
            if GST_CLOCK_TIME_IS_VALID base_time && (base_time <? current_time)
            then CInt.to_gint64
                   (running_time current_time base_time + last_position s)
            else last_position s
        | None => last_position s
        end
    | _, _ => last_position s
    end.

(** [cleanup_pipeline()] *)
Definition cleanup_pipeline : M t unit :=
  id <- gets bus_watch_id ;;
  when (0 <? id)
    (emit (EvSourceRemove id) ;;
     modify (set_bus_watch_id 0)) ;;
  p <- gets pipeline ;;
  match p with
  | Some h =>
      emit (EvSetState h GST_STATE_NULL) ;;
      emit (EvUnref h) ;;
      modify (set_pipeline None)
  | None => ret tt
  end.

(** [stop()] *)
Definition stop : M t unit :=
  busy <- gets stopping ;;
  if busy then ret tt
  else
    modify (set_stopping true) ;;
    (* 1. Break the pipe connection. *)
    p <- gets pipeline ;;
    match p with
    | Some h => emit (EvSetState h GST_STATE_NULL)
    | None => ret tt
    end ;;
    (* 2. Stop Decoder *)
    on_decoder Decoder.stop ;;
    (* 3. Cleanup GStreamer *)
    cleanup_pipeline ;;
    modify (set_stopping false) ;;
    modify (set_is_playing false) ;;
    modify (set_is_paused false).

(** What the libraries answer during [read_metadata]: [opened] is the
    [mp4config] filled in by a successful [mp4read_open] ([None] when it
    returns non-zero), [faad_open] tells whether [NeAACDecOpen] gave a
    handle, [init2] is the rate and channel count stored by a successful
    [NeAACDecInit2] ([None] when it returns a negative value). *)
Record MetaEnv := mkMeta {
  opened : option Mp4.config;
  faad_open : bool;
  init2 : option (Z * Z)
}.

(** [dst = src] guarded by [if (src)]. *)
Definition assign_if_set (set : string -> t -> t) (src : option string)
  : M t unit :=
  match src with
  | Some v => modify (set v)
  | None => ret tt
  end.

(** [read_metadata(filepath)]; a null [filepath] is [None].  The global
    switch [mp4config.verbose.tags] is not part of the state. *)
Definition read_metadata (filepath : option string) (env : MetaEnv)
  : M t unit :=
  (* Reset fields *)
  modify (set_meta_title "") ;;
  modify (set_meta_artist "") ;;
  modify (set_meta_album "") ;;
  modify (set_cover_art []) ;;
  match filepath with
  | None => ret tt
  | Some _ =>
      emit EvMp4Open ;;
      match opened env with
      | Some cfg =>
          assign_if_set set_meta_title (Mp4.meta_title cfg) ;;
          assign_if_set set_meta_artist (Mp4.meta_artist cfg) ;;
          assign_if_set set_meta_album (Mp4.meta_album cfg) ;;
          match Mp4.cover_art cfg with
          | Some data =>
              when (0 <? Z.of_nat (List.length data))
                (modify (set_cover_art data))
          | None => ret tt
          end ;;
          emit EvNeAACDecOpen ;;
          when (faad_open env)
            (emit EvNeAACDecInit2 ;;
             match init2 env with
             | Some (rate, _) =>
                 when (0 <? rate)
                   (modify (set_current_samplerate (CInt.to_int rate)))
             | None => ret tt
             end ;;
             emit EvNeAACDecClose) ;;
          (if (0 <? Mp4.samplerate cfg) && (0 <? Mp4.samples cfg)
           then modify (set_total_duration
                          (Z.quot (CInt.to_gint64 (Mp4.samples cfg * GST_SECOND))
                                  (Mp4.samplerate cfg)))
           else modify (set_total_duration 0)) ;;
          emit EvMp4Close
      | None =>
          emit (EvPrintErr "Backend: Failed to read metadata for %s\n")
      end
  end.

(** What the libraries answer during [play_file]: the pipeline made by
    [gst_parse_launch] ([None] for NULL), its bus, the source id given by
    [gst_bus_add_watch], and the answer of [pthread_create]. *)
Record PlayEnv := mkPlay {
  launched : option Z;
  bus_handle : Z;
  watch_id : Z;
  created : option Z
}.

(** [play_file(filepath, start_time)] *)
Definition play_file (filepath : string) (start_time : Z) (env : PlayEnv)
  : M t unit :=
  busy <- gets stopping ;;
  if busy then ret tt
  else
    playing <- gets is_playing ;;
    paused <- gets is_paused ;;
    when (playing || paused) stop ;;
    emit (EvPrint "Backend: Playing %s from %d\n") ;;
    modify (set_current_filepath_str filepath) ;;
    modify (set_is_playing true) ;;
    modify (set_is_paused false) ;;
    modify (set_last_position (CInt.to_gint64 (start_time * GST_SECOND))) ;;
    cs <- gets current_samplerate ;;
    let rate := if 0 <? cs then cs else 44100 in
    (* 1. Create Pipeline *)
    emit (EvParseLaunch rate) ;;
    modify (set_pipeline (launched env)) ;;
    p <- gets pipeline ;;
    match p with
    | None =>
        emit (EvPrintErr "Backend: Failed to create pipeline\n") ;;
        modify (set_is_playing false)
    | Some h =>
        (* 2. Setup Bus *)
        modify (set_bus (Some (bus_handle env))) ;;
        emit (EvBusAddWatch h (watch_id env)) ;;
        modify (set_bus_watch_id (watch_id env)) ;;
        (* 3. Start Decoder Thread *)
        ok <- on_decoder (Decoder.start filepath start_time (created env)) ;;
        if negb ok then cleanup_pipeline
        else
          (* 4. Start Pipeline *)
          emit (EvSetState h GST_STATE_PLAYING)
    end.

(** [pause()]: pauses, or resumes when already paused. *)
Definition pause (clk : ClockEnv) : M t unit :=
  p <- gets pipeline ;;
  playing <- gets is_playing ;;
  match p with
  | None => ret tt
  | Some h =>
      if negb playing then ret tt
      else
        paused <- gets is_paused ;;
        if paused then
          (* Resuming: make last_position a relative offset again *)
          match clock clk with
          | Some current_time =>
              let base_time := base_time clk in
              when (GST_CLOCK_TIME_IS_VALID base_time
                    && (base_time <? current_time))
                (let running_time := running_time current_time base_time in
                 lp <- gets last_position ;;
                 modify (set_last_position (CInt.to_gint64 (lp - running_time))))
          | None => ret tt
          end ;;
          emit (EvSetState h GST_STATE_PLAYING) ;;
          modify (set_is_paused false)
        else
          pos <- gets (get_position clk) ;;
          modify (set_last_position pos) ;;
          emit (EvSetState h GST_STATE_PAUSED) ;;
          modify (set_is_paused true)
  end.

(** [bus_callback_func(bus, msg, data)], with [self] the state; the
    result is the [gboolean] it returns. *)
Definition bus_callback_func (msg : GstMessage) : M t bool :=
  match msg with
  | GST_MESSAGE_EOS =>
      emit (EvPrint "Backend: EOS reached.\n") ;;
      stop ;;
      cb <- gets on_eos_callback ;;
      match cb with
      | Some f =>
          ud <- gets eos_user_data ;;
          emit (EvEosCallback f ud)
      | None => ret tt
      end
  | GST_MESSAGE_ERROR _ =>
      emit (EvPrintErr "Backend: Error: %s\n") ;;
      stop
  | GST_MESSAGE_OTHER => ret tt
  end ;;
  ret true.

(** The session states of the transport controller, read off the two
    flags. *)
Inductive Session := Stopped | Playing | Paused.

Definition session (s : t) : Session :=
  if is_paused s then Paused
  else if is_playing s then Playing
  else Stopped.

(** *** Histories of calls

    The states the object can be in between two calls: the constructor's
    state, followed by any sequence of public calls and bus messages,
    each with arbitrary answers from the libraries. *)
Inductive Call :=
| CallPlayFile (filepath : string) (start_time : Z) (env : PlayEnv)
| CallPause (clk : ClockEnv)
| CallStop
| CallSetEosCallback (callback : option Z) (user_data : Z)
| CallReadMetadata (filepath : option string) (env : MetaEnv)
| CallBus (msg : GstMessage).

Definition call (c : Call) : M t unit :=
  match c with
  | CallPlayFile f st env => play_file f st env
  | CallPause clk => pause clk
  | CallStop => stop
  | CallSetEosCallback cb ud => set_eos_callback cb ud
  | CallReadMetadata f env => read_metadata f env
  | CallBus msg => bus_callback_func msg ;; ret tt
  end.

Definition run (calls : list Call) (s : t) : t :=
  List.fold_left (fun acc c => state_of (call c acc)) calls s.

Definition reachable (s : t) : Prop :=
  exists calls, s = run calls init.

End MusicBackend.

(** * Vocabulary of the properties *)

Import MusicBackend.

(** The calls [stop] makes when it is not rejected: deactivation of the
    pipeline if there is one, the join if the decoder has a thread, then the
    release of the pipeline. *)
Definition deactivation (s : t) : list Event :=
  match pipeline s with
  | Some h => [EvSetState h GST_STATE_NULL]
  | None => []
  end.

Definition joining (s : t) : list Event :=
  if Decoder.running (decoder s) && negb (Decoder.thread_id (decoder s) =? 0)
  then [EvThreadJoin (Decoder.thread_id (decoder s))]
  else [].

Definition release (s : t) : list Event :=
  (if 0 <? bus_watch_id s then [EvSourceRemove (bus_watch_id s)] else []) ++
  match pipeline s with
  | Some h => [EvSetState h GST_STATE_NULL; EvUnref h]
  | None => []
  end.

(** What holds of the object between any two calls. *)
Definition consistent (s : t) : Prop :=
  stopping s = false /\
  (Decoder.running (decoder s) = true ->
   is_playing s = true /\ pipeline s <> None).

(** A session playing "track.m4a" from second 1: pipeline 7, bus watch 5,
    decoder thread 9, an end-of-stream callback 11 registered with user
    data 22. *)
Definition playing_example : t :=
  run [CallSetEosCallback (Some 11) 22;
       CallPlayFile "track.m4a" 1 (mkPlay (Some 7) 3 5 (Some 9))] init.

(** A call to [mp4read_seek]. *)
Definition is_seek (e : Event) : bool :=
  match e with EvMp4Seek _ => true | _ => false end.


(** The [double] of a positive integer below [2 ^ 53]: the integer itself,
    with its mantissa shifted up to 53 bits. *)
Definition normal (n : Z) : spec_float :=
  S754_finite false (Z.to_pos (n * 2 ^ (53 - Zdigits2 n))) (Zdigits2 n - 53).

(** The integer part of a positive finite [double] with mantissa [M] and
    exponent [E]. *)
Definition ipart (M E : Z) : Z :=
  if 0 <=? E then M * 2 ^ E else M / 2 ^ (- E).

(** Whether a location is at or above the midpoint. *)
Definition upper (l : location) : bool :=
  match l with
  | loc_Inexact Eq | loc_Inexact Gt => true
  | _ => false
  end.

(** The second half of [binary_round_aux]: renormalising the rounded
    mantissa. *)
Definition finish (M e : Z) : spec_float :=
  let '(mrs, e') := shr_fexp Decoder.prec Decoder.emax M e loc_Exact in
  match shr_m mrs with
  | Z0 => S754_zero false
  | Zpos m =>
      if e' <=? Decoder.emax - Decoder.prec then S754_finite false m e'
      else S754_infinity false
  | Zneg _ => S754_nan
  end.


(** * Vocabulary of the further properties *)

(** The outside calls made over a whole history of calls. *)
Fixpoint run_trace (calls : list Call) (s : t) : list Event :=
  match calls with
  | [] => []
  | c :: rest => trace_of (call c s) ++ run_trace rest (state_of (call c s))
  end.

(** The thread the decoder object holds, if it is running. *)
Definition live_thread (s : t) : option Z :=
  if Decoder.running (decoder s)
  then Some (Decoder.thread_id (decoder s))
  else None.

(** Replays the thread events of a trace from a set of live threads that is
    empty or a singleton: a create needs no live thread, a join needs the
    live thread to be the one joined.  [None] when the trace breaks that
    discipline. *)
Fixpoint thread_discipline (alive : option Z) (tr : list Event)
  : option (option Z) :=
  match tr with
  | [] => Some alive
  | EvThreadCreate tid :: rest =>
      match alive with
      | None => thread_discipline (Some tid) rest
      | Some _ => None
      end
  | EvThreadJoin tid :: rest =>
      match alive with
      | Some live => if live =? tid then thread_discipline None rest else None
      | None => None
      end
  | _ :: rest => thread_discipline alive rest
  end.

(** A call whose [pthread_create], if it succeeds, answers a thread id other
    than 0 (the value [Decoder] uses for "no thread"). *)
Definition thread_id_nonzero (c : Call) : bool :=
  match c with
  | CallPlayFile _ _ env =>
      match created env with
      | Some tid => negb (tid =? 0)
      | None => true
      end
  | _ => true
  end.

Definition is_set_eos_callback (c : Call) : bool :=
  match c with CallSetEosCallback _ _ => true | _ => false end.

Definition is_read_metadata (c : Call) : bool :=
  match c with CallReadMetadata _ _ => true | _ => false end.

Definition has_pipeline (s : t) : bool :=
  match pipeline s with Some _ => true | None => false end.

(** What holds of the flags, the pipeline and the decoder between any two
    calls, as a test. *)
Definition coherent (s : t) : bool :=
  negb (stopping s)
  && implb (is_paused s) (is_playing s && has_pipeline s)
  && Bool.eqb (has_pipeline s) (Decoder.running (decoder s))
  && implb (has_pipeline s) (is_playing s).

(** A running decoder holds a thread id other than 0. *)
Definition threaded (s : t) : bool :=
  implb (Decoder.running (decoder s))
        (negb (Decoder.thread_id (decoder s) =? 0)).

Definition is_mp4_close (e : Event) : bool :=
  match e with EvMp4Close => true | _ => false end.

Definition is_faad_close (e : Event) : bool :=
  match e with EvNeAACDecClose => true | _ => false end.

Definition is_fd_close (e : Event) : bool :=
  match e with EvClose _ => true | _ => false end.

Definition is_frame_read (e : Event) : bool :=
  match e with EvMp4Frame => true | _ => false end.

Definition is_write (e : Event) : bool :=
  match e with EvWrite _ _ => true | _ => false end.

Definition is_thread_create (e : Event) : bool :=
  match e with EvThreadCreate _ => true | _ => false end.

(** The events an iteration of the frame loop can make. *)
Definition is_loop_event (e : Event) : bool :=
  match e with
  | EvMp4Frame | EvNeAACDecDecode | EvPrintErr _ | EvWrite _ _ | EvPerror _ => true
  | _ => false
  end.

(** An iteration that ends the frame loop: stop seen, no frame read, or a
    failed write. *)
Definition ends_loop (fe : Decoder.FrameEnv) : bool :=
  Decoder.stop_seen fe
  || negb (Decoder.frame_read fe)
  || (negb (0 <? Decoder.frame_error fe) && (0 <? Decoder.frame_samples fe)
      && (Decoder.written fe =? -1)).

Definition is_open_pipe (e : Event) : bool :=
  match e with EvOpenPipe => true | _ => false end.

(** The events the seek block can make. *)
Definition is_seek_block_event (e : Event) : bool :=
  match e with
  | EvMp4Seek _ | EvPrint _ | EvPrintErr _ => true
  | _ => false
  end.



(** * Properties of the control thread *)


(** ** Integer lemmas *)

Lemma to_gint64_range z : CInt.is_gint64 (CInt.to_gint64 z).
Proof.
  unfold CInt.is_gint64, CInt.to_gint64.
  pose proof (Z.mod_pos_bound (z + 2 ^ 63) (2 ^ 64) ltac:(lia)). lia.
Qed.

Lemma to_gint64_small z : CInt.is_gint64 z -> CInt.to_gint64 z = z.
Proof.
  unfold CInt.is_gint64, CInt.to_gint64. intros H.
  rewrite Z.mod_small by lia. lia.
Qed.

Lemma to_gint64_congr x y :
  (x - y) mod 2 ^ 64 = 0 -> CInt.to_gint64 x = CInt.to_gint64 y.
Proof.
  unfold CInt.to_gint64. intros H. f_equal.
  apply Z.mod_divide in H; [|lia]. destruct H as [k Hk].
  replace (x + 2 ^ 63) with (y + 2 ^ 63 + k * 2 ^ 64) by lia.
  apply Z.mod_add. lia.
Qed.

Lemma to_gint64_sub_self x : (CInt.to_gint64 x - x) mod 2 ^ 64 = 0.
Proof.
  unfold CInt.to_gint64.
  rewrite (Z.mod_eq (x + 2 ^ 63) (2 ^ 64)) by lia.
  replace (x + 2 ^ 63 - 2 ^ 64 * ((x + 2 ^ 63) / 2 ^ 64) - 2 ^ 63 - x)
    with (- ((x + 2 ^ 63) / 2 ^ 64) * 2 ^ 64) by lia.
  apply Z.mod_mul. lia.
Qed.

Lemma to_guint64_sub_self x : (CInt.to_guint64 x - x) mod 2 ^ 64 = 0.
Proof.
  unfold CInt.to_guint64.
  rewrite (Z.mod_eq x (2 ^ 64)) by lia.
  replace (x - 2 ^ 64 * (x / 2 ^ 64) - x) with (- (x / 2 ^ 64) * 2 ^ 64) by lia.
  apply Z.mod_mul. lia.
Qed.

Lemma mod64_zero_add a b :
  a mod 2 ^ 64 = 0 -> b mod 2 ^ 64 = 0 -> (a + b) mod 2 ^ 64 = 0.
Proof.
  intros Ha Hb. rewrite Z.add_mod, Ha, Hb by lia. reflexivity.
Qed.

Lemma running_time_congr now base :
  (running_time now base - (now - base)) mod 2 ^ 64 = 0.
Proof.
  unfold running_time.
  replace (CInt.to_gint64 (CInt.to_guint64 (now - base)) - (now - base))
    with ((CInt.to_gint64 (CInt.to_guint64 (now - base)) - CInt.to_guint64 (now - base))
          + (CInt.to_guint64 (now - base) - (now - base))) by lia.
  apply mod64_zero_add; [apply to_gint64_sub_self | apply to_guint64_sub_self].
Qed.

(** Adding the running time wraps to the same value as adding the plain
    difference of the two clock readings. *)
Lemma add_running_time now base lp :
  CInt.to_gint64 (running_time now base + lp) = CInt.to_gint64 (lp + (now - base)).
Proof.
  apply to_gint64_congr.
  replace (running_time now base + lp - (lp + (now - base)))
    with (running_time now base - (now - base)) by lia.
  apply running_time_congr.
Qed.

(** Subtracting the running time and adding it back is the identity on
    [gint64]. *)
Lemma sub_add_running_time rt p :
  CInt.is_gint64 p -> CInt.to_gint64 (rt + CInt.to_gint64 (p - rt)) = p.
Proof.
  intros Hp. rewrite <- (to_gint64_small p Hp) at 2.
  apply to_gint64_congr.
  replace (rt + CInt.to_gint64 (p - rt) - p)
    with (CInt.to_gint64 (p - rt) - (p - rt)) by lia.
  apply to_gint64_sub_self.
Qed.

(** ** get_position *)

Lemma get_position_paused clk s :
  is_paused s = true -> get_position clk s = last_position s.
Proof. unfold get_position. intros ->. reflexivity. Qed.

Lemma get_position_live clk s h now :
  is_paused s = false -> is_playing s = true -> pipeline s = Some h ->
  clock clk = Some now ->
  GST_CLOCK_TIME_IS_VALID (base_time clk) = true ->
  base_time clk < now ->
  get_position clk s = CInt.to_gint64 (last_position s + (now - base_time clk)).
Proof.
  unfold get_position. intros -> -> -> -> -> Hlt.
  apply Z.ltb_lt in Hlt. rewrite Hlt. cbn [andb].
  apply add_running_time.
Qed.

Lemma get_position_not_after clk s now :
  clock clk = Some now -> now <= base_time clk ->
  get_position clk s = last_position s.
Proof.
  unfold get_position. intros -> Hle.
  apply Z.ltb_ge in Hle. rewrite Hle, andb_false_r.
  destruct (is_paused s), (pipeline s), (is_playing s); reflexivity.
Qed.

Lemma get_position_idle clk s :
  is_paused s = false ->
  (is_playing s = false \/ pipeline s = None \/ clock clk = None \/
   GST_CLOCK_TIME_IS_VALID (base_time clk) = false) ->
  get_position clk s = last_position s.
Proof.
  unfold get_position. intros -> H.
  destruct (pipeline s), (is_playing s), (clock clk); try reflexivity.
  destruct H as [H | [H | [H | H]]]; try discriminate.
  rewrite H. reflexivity.
Qed.

(** ** stop and cleanup_pipeline *)

(** Runs the monadic code on the state at hand, leaving the integer
    operations alone. *)
Ltac exec :=
  cbv - [Z.eqb Z.ltb Z.leb Z.add Z.sub Z.mul Z.quot Z.div Z.modulo Z.pow
         CInt.to_gint64 CInt.to_guint64 CInt.to_int running_time
         GST_CLOCK_TIME_IS_VALID GST_SECOND List.length Z.of_nat].


Ltac break_state s :=
  let d := fresh "d" in
  destruct s as [f_playing f_paused f_pipe f_bus f_watch f_stopping f_cb f_ud
                 f_lp f_rate f_dur f_path f_title f_artist f_album f_cover d];
  destruct d as [d_path d_start d_flag d_run d_tid]; cbn in *.

Lemma stop_trace s :
  stopping s = false ->
  trace_of (stop s) = deactivation s ++ joining s ++ release s.
Proof.
  intros Hs. unfold deactivation, joining, release.
  break_state s. subst. exec.
  destruct f_pipe, d_run, (d_tid =? 0), (0 <? f_watch); reflexivity.
Qed.

Lemma stop_state s :
  stopping s = false ->
  let s' := state_of (stop s) in
  session s' = Stopped /\ is_playing s' = false /\ is_paused s' = false /\
  pipeline s' = None /\ stopping s' = false /\
  Decoder.running (decoder s') = false /\
  last_position s' = last_position s /\
  current_filepath_str s' = current_filepath_str s /\
  on_eos_callback s' = on_eos_callback s /\
  eos_user_data s' = eos_user_data s /\
  current_samplerate s' = current_samplerate s /\
  total_duration s' = total_duration s.
Proof.
  intros Hs. break_state s. subst. exec.
  destruct f_pipe, d_run, (d_tid =? 0), (0 <? f_watch); repeat split; reflexivity.
Qed.

Lemma init_consistent : consistent init.
Proof. split; [reflexivity | discriminate]. Qed.

Lemma stop_consistent s : stopping s = false -> consistent (state_of (stop s)).
Proof.
  intros Hs. destruct (stop_state s Hs) as (_ & _ & _ & _ & H1 & H2 & _).
  split; [exact H1 | rewrite H2; discriminate].
Qed.

Lemma play_file_consistent f start env s :
  consistent s -> consistent (state_of (play_file f start env s)).
Proof.
  intros [Hs Hr]. destruct env as [l bh wi c].
  break_state s. subst. unfold consistent. exec.
  destruct f_playing, f_paused, f_pipe, d_run, l, c, (d_tid =? 0),
    (0 <? f_watch), (0 <? wi);
    cbn; (split; [reflexivity|]); intros H; try discriminate H;
    try (split; [reflexivity | discriminate]);
    destruct (Hr eq_refl) as [Hr1 Hr2]; try discriminate Hr1; try (now elim Hr2).
Qed.

Lemma pause_consistent clk s :
  consistent s -> consistent (state_of (pause clk s)).
Proof.
  intros [Hs Hr]. destruct clk as [c bt].
  break_state s. subst. unfold consistent. exec.
  destruct f_pipe, f_playing, f_paused, c as [now|]; cbn; try (split; [reflexivity | exact Hr]).
  all: destruct (GST_CLOCK_TIME_IS_VALID bt), (bt <? now);
    cbn; (split; [reflexivity | exact Hr]).
Qed.

Lemma read_metadata_consistent f env s :
  consistent s -> consistent (state_of (read_metadata f env s)).
Proof.
  intros [Hs Hr]. destruct env as [o fo i2].
  break_state s. subst. unfold consistent. exec.
  destruct f; [|split; [reflexivity | exact Hr]].
  destruct o as [cfg|]; [|split; [reflexivity | exact Hr]].
  destruct cfg as [t1 t2 t3 cv r n fn]. cbn.
  destruct t1, t2, t3, cv, fo, i2 as [[rate ch]|]; cbn;
    repeat match goal with
           | |- context [if ?b then _ else _] => destruct b
           end;
    cbn; split; solve [reflexivity | exact Hr].
Qed.

Lemma bus_callback_consistent msg s :
  consistent s -> consistent (state_of (bus_callback_func msg s)).
Proof.
  intros [Hs Hr]. destruct msg.
  - pose proof (stop_consistent s Hs) as [H1 H2].
    revert H1 H2. break_state s. subst. unfold consistent. exec.
    destruct f_pipe, d_run, (d_tid =? 0), (0 <? f_watch), f_cb; cbn; intros;
      split; assumption.
  - pose proof (stop_consistent s Hs) as [H1 H2].
    revert H1 H2. break_state s. subst. unfold consistent. exec.
    destruct f_pipe, d_run, (d_tid =? 0), (0 <? f_watch); cbn; intros;
      split; assumption.
  - split; assumption.
Qed.

Lemma call_consistent c s :
  consistent s -> consistent (state_of (call c s)).
Proof.
  intros H. destruct c; cbn [call].
  - apply play_file_consistent, H.
  - apply pause_consistent, H.
  - apply stop_consistent, H.
  - destruct H as [Hs Hr]. split; [exact Hs | exact Hr].
  - apply read_metadata_consistent, H.
  - pose proof (bus_callback_consistent msg s H) as H'.
    revert H'. unfold state_of, bind, ret. 
    destruct (bus_callback_func msg s) as [[b s'] tr]. cbn. exact (fun x => x).
Qed.

Lemma run_consistent calls s : consistent s -> consistent (run calls s).
Proof.
  revert s. induction calls as [|c calls IH]; intros s H; cbn.
  - exact H.
  - apply IH, call_consistent, H.
Qed.

Lemma reachable_consistent s : reachable s -> consistent s.
Proof. intros [calls ->]. apply run_consistent, init_consistent. Qed.

Lemma count_app p l1 l2 : count p (l1 ++ l2) = (count p l1 + count p l2)%nat.
Proof. unfold count. rewrite filter_app, length_app. reflexivity. Qed.

Lemma stop_trace_no_callback s : count is_eos_callback (trace_of (stop s)) = 0%nat.
Proof.
  break_state s. exec.
  destruct f_stopping, f_pipe, d_run, (d_tid =? 0), (0 <? f_watch);
    reflexivity.
Qed.

(** Splitting a short concrete trace at a join. *)
Ltac split_at_join H :=
  repeat match type of H with
         | _ = ?pre ++ _ :: _ =>
             is_var pre; destruct pre; cbn in H; try discriminate H
         | _ :: _ = _ :: _ =>
             let H1 := fresh in
             injection H as H1 H; try discriminate H1
         | [] = _ :: _ => discriminate H
         | [] = ?pre ++ _ :: _ => destruct pre; discriminate H
         end.

(** C2. In every run of [MusicBackend::stop] that passes the [stopping]
    guard, on a state the object can be in between calls: if there is a
    pipeline, setting it to [GST_STATE_NULL] is the first outside call of
    [stop]; and whenever [stop] joins the decoder thread, a pipeline exists
    and the calls made before the join are exactly that deactivation. *)
Theorem stop_deactivates_pipeline_before_join s :
  reachable s ->
  stopping s = false ->
  (forall h, pipeline s = Some h ->
     exists rest, trace_of (stop s) = EvSetState h GST_STATE_NULL :: rest) /\
  (forall pre tid post,
     trace_of (stop s) = pre ++ EvThreadJoin tid :: post ->
     exists h, pipeline s = Some h /\ pre = [EvSetState h GST_STATE_NULL]).
Proof.
  intros Hreach Hs. apply reachable_consistent in Hreach.
  destruct Hreach as [_ Hrun]. rewrite (stop_trace s Hs). split.
  - intros h Hp. unfold deactivation. rewrite Hp. cbn. eauto.
  - intros pre tid post. unfold deactivation, joining, release.
    destruct (pipeline s) as [h|] eqn:Hp.
    + intros H. exists h. split; [reflexivity|].
      destruct (Decoder.running (decoder s)
                && negb (Decoder.thread_id (decoder s) =? 0)),
        (0 <? bus_watch_id s); cbn in H; split_at_join H;
        subst; reflexivity.
    + destruct (Decoder.running (decoder s)) eqn:Hr.
      * destruct (Hrun eq_refl) as [_ Hne]. congruence.
      * cbn. destruct (0 <? bus_watch_id s); cbn; intros H;
          split_at_join H.
Qed.

Lemma stop_deactivates_pipeline_before_join_witness :
  (exists rest,
     trace_of (stop playing_example) = EvSetState 7 GST_STATE_NULL :: rest) /\
  (exists h, pipeline playing_example = Some h /\
             [EvSetState 7 GST_STATE_NULL] = [EvSetState h GST_STATE_NULL]).
Proof.
  destruct (stop_deactivates_pipeline_before_join playing_example) as [H1 H2].
  - eexists. reflexivity.
  - reflexivity.
  - split.
    + apply (H1 7). reflexivity.
    + apply (H2 [EvSetState 7 GST_STATE_NULL] 9
                [EvSourceRemove 5; EvSetState 7 GST_STATE_NULL; EvUnref 7]).
      reflexivity.
Defined.

(** The end-of-stream branch of the bus handler: [stop], then the callback
    if one is registered. *)
Lemma bus_eos_trace s cb :
  on_eos_callback s = Some cb ->
  trace_of (bus_callback_func GST_MESSAGE_EOS s) =
  EvPrint "Backend: EOS reached.\n" :: trace_of (stop s)
    ++ [EvEosCallback cb (eos_user_data s)].
Proof.
  intros Hcb. break_state s. subst. exec.
  destruct f_stopping, f_pipe, d_run, (d_tid =? 0), (0 <? f_watch);
    reflexivity.
Qed.

Lemma bus_eos_state s :
  state_of (bus_callback_func GST_MESSAGE_EOS s) = state_of (stop s).
Proof.
  break_state s. exec.
  destruct f_stopping, f_pipe, d_run, (d_tid =? 0), (0 <? f_watch), f_cb;
    reflexivity.
Qed.

(** C7. On an end-of-stream message, in any state the object can be in
    between calls and with a callback registered, the handler runs [stop]
    and then invokes the callback, exactly once, with the registered user
    data; the session is left [Stopped], without pipeline or running
    decoder, and the handler returns TRUE. *)
Theorem eos_stops_then_calls_back_once s cb :
  reachable s ->
  on_eos_callback s = Some cb ->
  let r := bus_callback_func GST_MESSAGE_EOS s in
  trace_of r =
    EvPrint "Backend: EOS reached.\n" :: trace_of (stop s)
      ++ [EvEosCallback cb (eos_user_data s)] /\
  count is_eos_callback (trace_of r) = 1%nat /\
  session (state_of r) = Stopped /\
  pipeline (state_of r) = None /\
  Decoder.running (decoder (state_of r)) = false /\
  result_of r = true.
Proof.
  intros Hreach Hcb r. subst r.
  apply reachable_consistent in Hreach. destruct Hreach as [Hs _].
  rewrite (bus_eos_trace s cb Hcb), bus_eos_state.
  destruct (stop_state s Hs) as (H1 & _ & _ & H4 & _ & H6 & _).
  repeat split; try assumption.
  - change (EvPrint "Backend: EOS reached.\n" :: trace_of (stop s)
              ++ [EvEosCallback cb (eos_user_data s)])
      with ([EvPrint "Backend: EOS reached.\n"] ++ trace_of (stop s)
              ++ [EvEosCallback cb (eos_user_data s)]).
    rewrite !count_app, stop_trace_no_callback. reflexivity.
  - break_state s. exec.
    destruct f_stopping, f_pipe, d_run, (d_tid =? 0), (0 <? f_watch), f_cb;
    reflexivity.
Qed.

Lemma eos_stops_then_calls_back_once_witness :
  let r := bus_callback_func GST_MESSAGE_EOS playing_example in
  trace_of r =
    [EvPrint "Backend: EOS reached.\n"; EvSetState 7 GST_STATE_NULL;
     EvThreadJoin 9; EvSourceRemove 5; EvSetState 7 GST_STATE_NULL; EvUnref 7;
     EvEosCallback 11 22] /\
  count is_eos_callback (trace_of r) = 1%nat /\
  session (state_of r) = Stopped.
Proof.
  intros r.
  destruct (eos_stops_then_calls_back_once playing_example 11)
    as (H1 & H2 & H3 & _).
  - eexists. reflexivity.
  - reflexivity.
  - split; [exact H1 | split; [exact H2 | exact H3]].
Defined.

(** ** play_file *)

(** The path of [play_file] on which [gst_parse_launch] gives no pipeline:
    the session is left [Stopped]. *)
Lemma play_file_launch_failure s filepath start env :
  stopping s = false ->
  launched env = None ->
  let s' := state_of (play_file filepath start env s) in
  session s' = Stopped /\ pipeline s' = None.
Proof.
  intros Hs Hl. destruct env as [l bh wi c]. cbn in Hl. subst l.
  break_state s. subst. exec.
  destruct f_playing, f_paused, f_pipe, d_run, (d_tid =? 0), (0 <? f_watch);
    split; reflexivity.
Qed.

(** The path on which the pipeline is built and [Decoder::start] fails: the
    pipeline is released, and [is_playing], set before the pipeline was
    built, is still set. *)
Lemma play_file_start_failure s filepath start env h :
  stopping s = false ->
  launched env = Some h ->
  created env = None ->
  let s' := state_of (play_file filepath start env s) in
  session s' = Playing /\ is_playing s' = true /\ is_paused s' = false /\
  pipeline s' = None /\ Decoder.running (decoder s') = false.
Proof.
  intros Hs Hl Hc. destruct env as [l bh wi c]. cbn in Hl, Hc. subst l c.
  break_state s. subst. exec.
  destruct f_playing, f_paused, f_pipe, d_run, (d_tid =? 0), (0 <? f_watch),
    (0 <? wi); repeat split; reflexivity.
Qed.

(** C1, at a failing input.  A first [play_file] on a fresh backend, with
    the pipeline built (handle 7) and [pthread_create] failing: the
    partially built pipeline is torn down, but the session reads [Playing],
    not [Stopped]. *)
Theorem play_file_thread_failure_leaves_playing :
  let r := play_file "track.m4a" 30 (mkPlay (Some 7) 3 5 None) init in
  trace_of r =
    [EvPrint "Backend: Playing %s from %d\n"; EvParseLaunch 44100;
     EvBusAddWatch 7 5; EvPerror "Decoder: Failed to create thread";
     EvSourceRemove 5; EvSetState 7 GST_STATE_NULL; EvUnref 7] /\
  pipeline (state_of r) = None /\
  is_playing (state_of r) = true /\
  is_paused (state_of r) = false /\
  session (state_of r) = Playing.
Proof. repeat split; reflexivity. Qed.

Lemma int_times_second start :
  CInt.is_int start -> CInt.to_gint64 (start * GST_SECOND) = start * GST_SECOND.
Proof.
  unfold CInt.is_int, GST_SECOND. intros H.
  apply to_gint64_small. unfold CInt.is_gint64. lia.
Qed.

(** C10. A [play_file] that passes the [stopping] guard and then fails,
    because no pipeline is built or because the decoder thread is not
    created, leaves the exposed file path set to the new path and
    [last_position] set to the new start time (in nanoseconds). *)
Theorem play_file_failure_keeps_new_path_and_position s filepath start env :
  stopping s = false ->
  CInt.is_int start ->
  launched env = None \/ created env = None ->
  let s' := state_of (play_file filepath start env s) in
  get_current_filepath s' = filepath /\
  last_position s' = start * GST_SECOND.
Proof.
  intros Hs Hi Hfail. rewrite <- (int_times_second start Hi).
  destruct env as [l bh wi c]. cbn in Hfail.
  break_state s. subst.
  destruct Hfail as [-> | ->];
    destruct f_playing, f_paused, f_pipe, d_run; try destruct l; exec;
    destruct (d_tid =? 0), (0 <? f_watch), (0 <? wi); split; reflexivity.
Qed.

Lemma play_file_failure_keeps_new_path_and_position_witness :
  let s' := state_of (play_file "next.m4a" 12 (mkPlay None 3 5 (Some 9)) init) in
  get_current_filepath s' = "next.m4a" /\
  last_position s' = 12 * GST_SECOND.
Proof.
  apply (play_file_failure_keeps_new_path_and_position
           init "next.m4a" 12 (mkPlay None 3 5 (Some 9))).
  - reflexivity.
  - unfold CInt.is_int. lia.
  - left. reflexivity.
Defined.

(** ** Position across pause and resume *)

(** C9. While playing (not paused) with a pipeline whose clock is obtained
    and whose base time is valid, [get_position] adds the clock delta to
    [last_position] only when the clock reads strictly more than the base
    time (the sum is the plain integer sum whenever that fits [gint64]);
    when the clock reads no more than the base time the result is
    [last_position]. *)
Theorem get_position_adds_delta_only_after_base clk s h now :
  is_paused s = false ->
  is_playing s = true ->
  pipeline s = Some h ->
  clock clk = Some now ->
  GST_CLOCK_TIME_IS_VALID (base_time clk) = true ->
  (base_time clk < now ->
   get_position clk s = CInt.to_gint64 (last_position s + (now - base_time clk)) /\
   (CInt.is_gint64 (last_position s + (now - base_time clk)) ->
    get_position clk s = last_position s + (now - base_time clk))) /\
  (now <= base_time clk -> get_position clk s = last_position s).
Proof.
  intros Hpa Hpl Hp Hc Hv. split.
  - intros Hlt.
    pose proof (get_position_live clk s h now Hpa Hpl Hp Hc Hv Hlt) as H.
    split; [exact H|]. intros Hfit. rewrite H. apply to_gint64_small, Hfit.
  - intros Hle. apply (get_position_not_after clk s now Hc Hle).
Qed.

Lemma get_position_adds_delta_only_after_base_witness :
  get_position (mkClock (Some 50) 20) playing_example = 1000000030 /\
  get_position (mkClock (Some 20) 20) playing_example = 1000000000.
Proof.
  split.
  - apply (get_position_adds_delta_only_after_base
             (mkClock (Some 50) 20) playing_example 7 50);
      try reflexivity; unfold CInt.is_gint64; cbn; lia.
  - apply (get_position_adds_delta_only_after_base
             (mkClock (Some 20) 20) playing_example 7 20);
      try reflexivity; cbn; lia.
Defined.

(** C5, as stated, fails when the clock reads less than the base time:
    playing from second 1, with a pipeline, a clock reading 5 and the valid
    base time 10, [get_position] returns [last_position], not
    [last_position + (5 - 10)]. *)
Lemma get_position_clock_behind_base :
  let s := playing_example in
  let clk := mkClock (Some 5) 10 in
  is_paused s = false /\ is_playing s = true /\ pipeline s = Some 7 /\
  clock clk = Some 5 /\ GST_CLOCK_TIME_IS_VALID (base_time clk) = true /\
  last_position s = 1000000000 /\
  get_position clk s = 1000000000 /\
  get_position clk s <> last_position s + (5 - base_time clk).
Proof. cbn. repeat split; try reflexivity. discriminate. Qed.

(** C5, amended.  [get_position] returns [last_position] when paused; when
    not paused and playing with a pipeline, a clock, a valid base time and a
    clock reading strictly after the base time, it returns
    [last_position + (now - base_time)] (wrapped to [gint64], so the plain
    sum whenever that fits); in every other case it returns
    [last_position]. *)
Theorem get_position_cases clk s :
  (is_paused s = true -> get_position clk s = last_position s) /\
  (forall h now,
     is_paused s = false -> is_playing s = true -> pipeline s = Some h ->
     clock clk = Some now ->
     GST_CLOCK_TIME_IS_VALID (base_time clk) = true ->
     base_time clk < now ->
     get_position clk s = CInt.to_gint64 (last_position s + (now - base_time clk)) /\
     (CInt.is_gint64 (last_position s + (now - base_time clk)) ->
      get_position clk s = last_position s + (now - base_time clk))) /\
  (is_paused s = false ->
   is_playing s = false \/ pipeline s = None \/ clock clk = None \/
   GST_CLOCK_TIME_IS_VALID (base_time clk) = false \/
   (exists now, clock clk = Some now /\ now <= base_time clk) ->
   get_position clk s = last_position s).
Proof.
  split; [apply get_position_paused|]. split.
  - intros h now Hpa Hpl Hp Hc Hv Hlt.
    pose proof (get_position_live clk s h now Hpa Hpl Hp Hc Hv Hlt) as H.
    split; [exact H|]. intros Hfit. rewrite H. apply to_gint64_small, Hfit.
  - intros Hpa [H | [H | [H | [H | (now & Hc & Hle)]]]].
    + apply get_position_idle; auto.
    + apply get_position_idle; auto.
    + apply get_position_idle; auto.
    + apply get_position_idle; auto.
    + apply (get_position_not_after clk s now Hc Hle).
Qed.

Lemma get_position_cases_witness :
  let s := playing_example in
  get_position (mkClock (Some 50) 20) (set_is_paused true s) = 1000000000 /\
  get_position (mkClock (Some 50) 20) s = 1000000030 /\
  get_position (mkClock (Some 5) 10) s = 1000000000.
Proof.
  intros s. split; [|split].
  - apply (proj1 (get_position_cases (mkClock (Some 50) 20) (set_is_paused true s))).
    reflexivity.
  - apply (proj1 (proj2 (get_position_cases (mkClock (Some 50) 20) s)) 7 50);
      try reflexivity; unfold CInt.is_gint64; cbn; lia.
  - apply (proj2 (proj2 (get_position_cases (mkClock (Some 5) 10) s)));
      [reflexivity|].
    right. right. right. right. exists 5. cbn. split; [reflexivity | lia].
Defined.

Lemma session_playing s :
  session s = Playing -> is_paused s = false /\ is_playing s = true.
Proof.
  unfold session. destruct (is_paused s), (is_playing s);
    intros H; try discriminate H; split; reflexivity.
Qed.

(** C4. From a [Playing] session, [pause] followed by [pause] again (the
    resume), with the same clock reading and base time at both calls and at
    the queries, gives back the position [get_position] reported before:
    the position is held while paused, and after the resume
    [last_position] plus the running time is again the position held at
    pause.  With a pipeline, the session goes [Paused] and back to
    [Playing], and when the clock reads after a valid base time the resume
    subtracts exactly that running time from [last_position]. *)
Theorem pause_resume_keeps_position clk s :
  session s = Playing ->
  let paused := state_of (pause clk s) in
  let resumed := state_of (pause clk paused) in
  get_position clk paused = get_position clk s /\
  get_position clk resumed = get_position clk s /\
  (forall h, pipeline s = Some h ->
     session paused = Paused /\ session resumed = Playing /\
     last_position paused = get_position clk s) /\
  (forall h now, pipeline s = Some h -> clock clk = Some now ->
     GST_CLOCK_TIME_IS_VALID (base_time clk) = true ->
     base_time clk < now ->
     last_position resumed =
       CInt.to_gint64 (last_position paused - running_time now (base_time clk)) /\
     CInt.to_gint64 (running_time now (base_time clk) + last_position resumed) =
       last_position paused).
Proof.
  intros Hsess. apply session_playing in Hsess. destruct Hsess as [Hpa Hpl].
  destruct clk as [c bt]. break_state s. subst.
  destruct f_pipe as [h|]; [|cbn; repeat split; try reflexivity; discriminate].
  destruct c as [now|].
  2:{ exec. repeat split; try reflexivity; discriminate. }
  destruct (GST_CLOCK_TIME_IS_VALID bt) eqn:Hv, (bt <? now) eqn:Hlt;
    unfold get_position, pause; exec; rewrite ?Hv, ?Hlt; exec;
    rewrite ?Hv, ?Hlt; cbn [andb];
    (split; [reflexivity|]); (split; [|split; [repeat split; reflexivity|]]);
    try reflexivity;
    try (intros h' now' _ Hn Hv' Hlt'; injection Hn as <-;
         apply Z.ltb_lt in Hlt'; congruence).
  - apply sub_add_running_time, to_gint64_range.
  - intros h' now' _ Hn _ _. injection Hn as <-.
    split; [reflexivity|]. apply sub_add_running_time, to_gint64_range.
Qed.

Lemma pause_resume_keeps_position_witness :
  let s := playing_example in
  let clk := mkClock (Some 50) 20 in
  get_position clk s = 1000000030 /\
  get_position clk (state_of (pause clk s)) = get_position clk s /\
  get_position clk (state_of (pause clk (state_of (pause clk s)))) =
    get_position clk s.
Proof.
  intros s clk. split; [reflexivity|].
  pose proof (pause_resume_keeps_position clk s eq_refl) as H. cbv zeta in H.
  split; [exact (proj1 H) | exact (proj1 (proj2 H))].
Defined.

(** ** read_metadata *)

Lemma duration_arith samples rate :
  CInt.is_uint32 samples -> 0 < rate ->
  Z.quot (CInt.to_gint64 (samples * GST_SECOND)) rate = samples * GST_SECOND / rate.
Proof.
  unfold CInt.is_uint32, GST_SECOND. intros Hs Hr.
  rewrite to_gint64_small by (unfold CInt.is_gint64; lia).
  apply Z.quot_div_nonneg; lia.
Qed.

Lemma read_metadata_duration_opened s filepath env cfg :
  opened env = Some cfg ->
  total_duration (state_of (read_metadata (Some filepath) env s)) =
  if (0 <? Mp4.samplerate cfg) && (0 <? Mp4.samples cfg)
  then Z.quot (CInt.to_gint64 (Mp4.samples cfg * GST_SECOND)) (Mp4.samplerate cfg)
  else 0.
Proof.
  intros Ho. destruct env as [o fo i2]. cbn in Ho. subst o.
  destruct cfg as [t1 t2 t3 cv r n fn].
  destruct t1, t2, t3, cv as [data|], fo, i2 as [[rate ch]|];
    break_state s; exec;
    try destruct (0 <? Z.of_nat (List.length data));
    try destruct (0 <? rate);
    destruct (0 <? r), (0 <? n); reflexivity.
Qed.

Lemma read_metadata_duration_kept s filepath env :
  filepath = None \/ opened env = None ->
  total_duration (state_of (read_metadata filepath env s)) = total_duration s.
Proof.
  intros H. destruct env as [o fo i2]. cbn in H.
  destruct filepath as [f|]; [|reflexivity].
  destruct H as [H | ->]; [discriminate H | reflexivity].
Qed.

(** C8, at a failing input.  After the metadata of a one-second file has been
    read, a read of a file that [mp4read_open] rejects leaves the cached
    duration at one second: neither sample count nor sample rate of the new
    file is known, and the duration is not zero.  ("Reset fields" at the top
    of [read_metadata] clears title, artist, album and cover art, and not
    [total_duration].) *)
Lemma read_metadata_failed_open_keeps_duration :
  let good := mkMeta (Some (Mp4.mk None None None None 44100 44100 43))
                     true (Some (44100, 2)) in
  let bad := mkMeta None false None in
  let s1 := run [CallReadMetadata (Some "one.m4a") good] init in
  let s2 := state_of (read_metadata (Some "missing.m4a") bad s1) in
  total_duration s1 = GST_SECOND /\
  total_duration s2 = GST_SECOND /\
  total_duration s2 <> 0.
Proof. cbn. repeat split; discriminate. Qed.

(** The assignments to [total_duration], path by path.  When the demuxer
    opens the file the cached duration becomes
    [samples * GST_SECOND / samplerate] if the container's sample count and
    sample rate are both positive, and zero otherwise; the paths that return
    before [mp4read_open] succeeds (a null path, a file that does not open)
    do not assign it. *)
Theorem read_metadata_duration s filepath env :
  (forall f cfg,
     filepath = Some f -> opened env = Some cfg -> Mp4.well_typed cfg ->
     total_duration (state_of (read_metadata filepath env s)) =
     if (0 <? Mp4.samplerate cfg) && (0 <? Mp4.samples cfg)
     then Mp4.samples cfg * GST_SECOND / Mp4.samplerate cfg
     else 0) /\
  (filepath = None \/ opened env = None ->
   total_duration (state_of (read_metadata filepath env s)) = total_duration s).
Proof.
  split; [|apply read_metadata_duration_kept].
  intros f cfg -> Ho (Hr & Hn & _).
  rewrite (read_metadata_duration_opened s f env cfg Ho).
  destruct (0 <? Mp4.samplerate cfg) eqn:Hpos; [|reflexivity].
  destruct (0 <? Mp4.samples cfg); [|reflexivity]. cbn [andb].
  apply duration_arith; [exact Hn | apply Z.ltb_lt, Hpos].
Qed.

Lemma read_metadata_duration_witness :
  let cfg := Mp4.mk None None None None 44100 88200 87 in
  let env := mkMeta (Some cfg) true (Some (44100, 2)) in
  total_duration (state_of (read_metadata (Some "two.m4a") env init)) =
    2 * GST_SECOND /\
  total_duration
    (state_of (read_metadata None env (set_total_duration 5 init))) = 5.
Proof.
  intros cfg env. split.
  - apply (proj1 (read_metadata_duration init (Some "two.m4a") env) "two.m4a" cfg);
      try reflexivity.
    unfold Mp4.well_typed, CInt.is_uint32. cbn. lia.
  - apply (proj2 (read_metadata_duration (set_total_duration 5 init) None env)).
    left. reflexivity.
Defined.


(** * Further properties of the control thread *)

(** ** Invariants between calls *)

Lemma call_coherent c s :
  coherent s = true -> coherent (state_of (call c s)) = true.
Proof.
  intros Hs. destruct c as [f st env | clk | | cb ud | f env | msg];
    cbn [call].
  - destruct env as [l bh wi c].
    break_state s. unfold coherent, has_pipeline in *. cbn in Hs.
    destruct f_stopping, f_playing, f_paused, f_pipe, d_run, l, c as [tid|];
      try discriminate Hs; exec;
      destruct (d_tid =? 0), (0 <? f_watch), (0 <? wi);
      try discriminate Hs; reflexivity.
  - destruct clk as [c bt].
    break_state s. unfold coherent, has_pipeline in *. cbn in Hs.
    destruct f_stopping, f_playing, f_paused, f_pipe, d_run, c as [now|];
      try discriminate Hs; exec;
      try destruct (GST_CLOCK_TIME_IS_VALID bt); try destruct (bt <? now);
      exact Hs.
  - break_state s. unfold coherent, has_pipeline in *. cbn in Hs.
    destruct f_stopping, f_playing, f_paused, f_pipe, d_run;
      try discriminate Hs; exec;
      destruct (d_tid =? 0), (0 <? f_watch); reflexivity.
  - exact Hs.
  - destruct env as [o fo i2].
    break_state s. unfold coherent, has_pipeline in *. cbn in Hs.
    destruct f; [|exact Hs]. exec.
    destruct o as [cfg|]; [|exact Hs].
    destruct cfg as [t1 t2 t3 cv r n fn]. cbn.
    destruct t1, t2, t3, cv, fo, i2 as [[rate ch]|]; cbn;
      repeat match goal with
             | |- context [if ?b then _ else _] =>
                 lazymatch b with
                 | (_ <? _) => destruct b
                 end
             end; exact Hs.
  - destruct msg as [|m|].
    + break_state s. unfold coherent, has_pipeline in *. cbn in Hs.
      destruct f_stopping, f_playing, f_paused, f_pipe, d_run, f_cb;
        try discriminate Hs; exec;
        destruct (d_tid =? 0), (0 <? f_watch); reflexivity.
    + break_state s. unfold coherent, has_pipeline in *. cbn in Hs.
      destruct f_stopping, f_playing, f_paused, f_pipe, d_run;
        try discriminate Hs; exec;
        destruct (d_tid =? 0), (0 <? f_watch); reflexivity.
    + exact Hs.
Qed.

Lemma run_coherent calls s : coherent s = true -> coherent (run calls s) = true.
Proof.
  revert s. induction calls as [|c calls IH]; intros s H; cbn.
  - exact H.
  - apply IH, call_coherent, H.
Qed.

Lemma reachable_coherent s : reachable s -> coherent s = true.
Proof. intros [calls ->]. apply run_coherent. reflexivity. Qed.

(** X1.  Between any two calls: the backend is not shutting down; a paused
    session is a playing one with a pipeline; there is a pipeline exactly
    when the decoder object is running; and a pipeline implies
    [is_playing]. *)
Theorem state_between_calls s :
  reachable s ->
  is_shutting_down s = false /\
  (is_paused s = true -> is_playing s = true /\ pipeline s <> None) /\
  (pipeline s <> None <-> Decoder.is_running (decoder s) = true) /\
  (pipeline s <> None -> is_playing s = true).
Proof.
  intros H. apply reachable_coherent in H. revert H.
  unfold coherent, has_pipeline, is_shutting_down, Decoder.is_running.
  destruct (stopping s), (is_paused s), (is_playing s), (pipeline s),
    (Decoder.running (decoder s)); cbn; intros H; try discriminate H;
    repeat split; try reflexivity; try discriminate; try congruence;
    intros; try discriminate; try congruence.
Qed.

Lemma state_between_calls_witness :
  is_shutting_down playing_example = false /\
  (pipeline playing_example <> None <->
   Decoder.is_running (decoder playing_example) = true).
Proof.
  destruct (state_between_calls playing_example) as (H1 & _ & H3 & _).
  - eexists. reflexivity.
  - split; [exact H1 | exact H3].
Defined.

(** ** One worker thread at a time *)

Lemma thread_discipline_app alive t1 t2 :
  thread_discipline alive (t1 ++ t2) =
  match thread_discipline alive t1 with
  | Some alive' => thread_discipline alive' t2
  | None => None
  end.
Proof.
  revert alive. induction t1 as [|e t1 IH]; intros alive; [reflexivity|].
  destruct e, alive as [live|]; cbn [app thread_discipline];
    try apply IH; try reflexivity.
  destruct (live =? tid); [apply IH | reflexivity].
Qed.

Lemma call_threads c s :
  thread_id_nonzero c = true -> coherent s = true -> threaded s = true ->
  thread_discipline (live_thread s) (trace_of (call c s)) =
    Some (live_thread (state_of (call c s))) /\
  threaded (state_of (call c s)) = true.
Proof.
  intros Hc Hs Ht. destruct c as [f st env | clk | | cb ud | f env | msg];
    cbn [call].
  - destruct env as [l bh wi c]. cbn in Hc.
    break_state s. unfold coherent, threaded, has_pipeline, live_thread in *.
    cbn in Hs, Ht.
    destruct f_stopping, f_playing, f_paused, f_pipe, d_run, l, c as [tid|];
      try discriminate Hs; exec;
      destruct (d_tid =? 0) eqn:Hd, (0 <? f_watch), (0 <? wi);
      try discriminate Ht; rewrite ?Z.eqb_refl; cbn;
      try (split; reflexivity);
      try (destruct (tid =? 0); [discriminate Hc | split; reflexivity]).
  - destruct clk as [c bt].
    break_state s. unfold coherent, threaded, has_pipeline, live_thread in *.
    cbn in Hs, Ht.
    destruct f_stopping, f_playing, f_paused, f_pipe, d_run, c as [now|];
      try discriminate Hs; exec;
      try destruct (GST_CLOCK_TIME_IS_VALID bt); try destruct (bt <? now);
      (split; [reflexivity | exact Ht]).
  - break_state s. unfold coherent, threaded, has_pipeline, live_thread in *.
    cbn in Hs, Ht.
    destruct f_stopping, f_playing, f_paused, f_pipe, d_run;
      try discriminate Hs; exec;
      destruct (d_tid =? 0) eqn:Hd, (0 <? f_watch);
      try discriminate Ht; rewrite ?Z.eqb_refl; split; reflexivity.
  - split; [reflexivity | exact Ht].
  - destruct env as [o fo i2].
    break_state s. unfold coherent, threaded, has_pipeline, live_thread in *.
    cbn in Hs, Ht.
    destruct f; [|split; [reflexivity | exact Ht]]. exec.
    destruct o as [cfg|]; [|destruct d_run; split; solve [reflexivity | exact Ht]].
    destruct cfg as [t1 t2 t3 cv r n fn]. cbn.
    destruct t1, t2, t3, cv, fo, i2 as [[rate ch]|]; cbn;
      repeat match goal with
             | |- context [if ?b then _ else _] =>
                 lazymatch b with
                 | (_ <? _) => destruct b
                 end
             end; destruct d_run; split; solve [reflexivity | exact Ht].
  - destruct msg as [|m|].
    + break_state s. unfold coherent, threaded, has_pipeline, live_thread in *.
      cbn in Hs, Ht.
      destruct f_stopping, f_playing, f_paused, f_pipe, d_run, f_cb;
        try discriminate Hs; exec;
        destruct (d_tid =? 0) eqn:Hd, (0 <? f_watch);
        try discriminate Ht; rewrite ?Z.eqb_refl; split; reflexivity.
    + break_state s. unfold coherent, threaded, has_pipeline, live_thread in *.
      cbn in Hs, Ht.
      destruct f_stopping, f_playing, f_paused, f_pipe, d_run;
        try discriminate Hs; exec;
        destruct (d_tid =? 0) eqn:Hd, (0 <? f_watch);
        try discriminate Ht; rewrite ?Z.eqb_refl; split; reflexivity.
    + split; [reflexivity | exact Ht].
Qed.

Lemma run_threads calls s :
  forallb thread_id_nonzero calls = true ->
  coherent s = true -> threaded s = true ->
  thread_discipline (live_thread s) (run_trace calls s) =
    Some (live_thread (run calls s)).
Proof.
  revert s. induction calls as [|c calls IH]; intros s Hnz Hs Ht;
    cbn [run_trace run fold_left]; [reflexivity|].
  cbn [forallb] in Hnz. apply andb_prop in Hnz. destruct Hnz as [Hc Hnz].
  destruct (call_threads c s Hc Hs Ht) as [Hstep Ht'].
  rewrite thread_discipline_app, Hstep.
  apply (IH _ Hnz (call_coherent c s Hs) Ht').
Qed.

Lemma run_app calls1 calls2 s :
  run (calls1 ++ calls2) s = run calls2 (run calls1 s).
Proof. unfold run. apply fold_left_app. Qed.

(** X2.  Over every history of calls in which [pthread_create] never answers the
    id 0, the thread events keep the discipline of one worker at a time: no
    thread is created while another is alive, every join is of the thread
    alive, and the thread alive at the end is the one the decoder object
    holds while it is running. *)
Theorem one_worker_thread calls :
  forallb thread_id_nonzero calls = true ->
  thread_discipline None (run_trace calls init) =
    Some (live_thread (run calls init)).
Proof.
  intros Hnz. apply (run_threads calls init Hnz); reflexivity.
Qed.

Lemma one_worker_thread_witness :
  let calls := [CallPlayFile "a.m4a" 0 (mkPlay (Some 7) 3 5 (Some 9));
                CallPlayFile "b.m4a" 0 (mkPlay (Some 8) 4 6 (Some 10))] in
  thread_discipline None (run_trace calls init) = Some (Some 10).
Proof.
  intros calls. apply (one_worker_thread calls). reflexivity.
Defined.

(** X3.  After [stop], at the end of any such history, no worker thread is
    alive. *)
Theorem stop_leaves_no_thread calls :
  forallb thread_id_nonzero calls = true ->
  thread_discipline None (run_trace (calls ++ [CallStop]) init) = Some None /\
  Decoder.is_running (decoder (run (calls ++ [CallStop]) init)) = false.
Proof.
  intros Hnz.
  assert (Hnz' : forallb thread_id_nonzero (calls ++ [CallStop]) = true)
    by (rewrite forallb_app, Hnz; reflexivity).
  pose proof (run_threads _ init Hnz' eq_refl eq_refl) as Hrun.
  change (live_thread init) with (@None Z) in Hrun. rewrite Hrun.
  rewrite run_app.
  change (run [CallStop] (run calls init))
    with (state_of (stop (run calls init))).
  assert (Hs : stopping (run calls init) = false).
  { pose proof (run_consistent calls init init_consistent) as [H _]. exact H. }
  destruct (stop_state _ Hs) as (_ & _ & _ & _ & _ & Hr & _).
  unfold live_thread, Decoder.is_running. rewrite Hr. split; reflexivity.
Qed.

Lemma stop_leaves_no_thread_witness :
  thread_discipline None
    (run_trace ([CallPlayFile "a.m4a" 0 (mkPlay (Some 7) 3 5 (Some 9))]
                ++ [CallStop]) init) = Some None.
Proof.
  apply (stop_leaves_no_thread
           [CallPlayFile "a.m4a" 0 (mkPlay (Some 7) 3 5 (Some 9))]).
  reflexivity.
Defined.

(** ** stop, play_file and the bus handler *)

(** X4.  A second [stop] right after a [stop] makes no outside call and changes
    nothing. *)
Theorem stop_twice s :
  stopping s = false ->
  stop (state_of (stop s)) = (tt, state_of (stop s), []).
Proof.
  intros Hs. break_state s. subst.
  destruct f_pipe, d_run; exec;
    destruct (d_tid =? 0) eqn:Hd, (0 <? f_watch) eqn:Hw; exec;
    rewrite ?Hd, ?Hw; reflexivity.
Qed.

Lemma stop_twice_witness :
  trace_of (stop (state_of (stop playing_example))) = [].
Proof.
  rewrite (stop_twice playing_example); reflexivity.
Defined.

(** X5.  A [play_file] in which the pipeline is built and the decoder thread is
    created, from any state the object can be in between calls: a session
    already playing or paused is stopped first, then the only outside calls
    are the log line, [gst_parse_launch] with the cached sample rate (44100
    when that is not positive), the bus watch, the thread creation and the
    switch of the new pipeline to PLAYING.  The session is [Playing] on the
    new pipeline, and the decoder runs the new thread on the given file and
    start time. *)
Theorem play_file_success s filepath start env h tid :
  reachable s ->
  launched env = Some h ->
  created env = Some tid ->
  let r := play_file filepath start env s in
  trace_of r =
    (if is_playing s || is_paused s then trace_of (stop s) else []) ++
    [EvPrint "Backend: Playing %s from %d\n";
     EvParseLaunch (if 0 <? current_samplerate s then current_samplerate s
                    else 44100);
     EvBusAddWatch h (watch_id env);
     EvThreadCreate tid;
     EvSetState h GST_STATE_PLAYING] /\
  session (state_of r) = Playing /\
  pipeline (state_of r) = Some h /\
  bus_watch_id (state_of r) = watch_id env /\
  get_current_filepath (state_of r) = filepath /\
  decoder (state_of r) = Decoder.mk filepath start false true tid.
Proof.
  intros Hreach Hl Hc r. subst r. apply reachable_coherent in Hreach.
  destruct env as [l bh wi c]. cbn in Hl, Hc. subst l c.
  break_state s. unfold coherent, has_pipeline in Hreach. cbn in Hreach.
  destruct f_stopping, f_playing, f_paused, f_pipe, d_run;
    try discriminate Hreach; exec;
    destruct (d_tid =? 0), (0 <? f_watch), (0 <? f_rate);
    repeat split; reflexivity.
Qed.

Lemma play_file_success_witness :
  let r := play_file "next.m4a" 12 (mkPlay (Some 8) 4 6 (Some 10))
                     playing_example in
  trace_of r =
    [EvSetState 7 GST_STATE_NULL; EvThreadJoin 9; EvSourceRemove 5;
     EvSetState 7 GST_STATE_NULL; EvUnref 7;
     EvPrint "Backend: Playing %s from %d\n"; EvParseLaunch 44100;
     EvBusAddWatch 8 6; EvThreadCreate 10; EvSetState 8 GST_STATE_PLAYING] /\
  decoder (state_of r) = Decoder.mk "next.m4a" 12 false true 10.
Proof.
  intros r.
  destruct (play_file_success playing_example "next.m4a" 12
              (mkPlay (Some 8) 4 6 (Some 10)) 8 10)
    as (H1 & _ & _ & _ & _ & H6).
  - eexists. reflexivity.
  - reflexivity.
  - reflexivity.
  - split; [exact H1 | exact H6].
Defined.

(** X6.  [play_file] never hands [gst_parse_launch] a sample rate that is not
    positive. *)
Theorem launch_rate_positive s filepath start env rate :
  In (EvParseLaunch rate) (trace_of (play_file filepath start env s)) ->
  0 < rate.
Proof.
  intros Hin.
  assert (Hall : forallb (fun e => match e with
                                   | EvParseLaunch r => 0 <? r
                                   | _ => true
                                   end)
                   (trace_of (play_file filepath start env s)) = true).
  { clear Hin. destruct env as [l bh wi c]. break_state s.
    destruct f_stopping, f_playing, f_paused, f_pipe, d_run, l, c; exec;
      destruct (d_tid =? 0), (0 <? f_watch), (0 <? wi),
        (0 <? f_rate) eqn:Hr; cbn; rewrite ?Hr; reflexivity. }
  rewrite forallb_forall in Hall. specialize (Hall _ Hin).
  apply Z.ltb_lt, Hall.
Qed.

Lemma launch_rate_positive_witness : 0 < 44100.
Proof.
  apply (launch_rate_positive init "a.m4a" 0 (mkPlay (Some 7) 3 5 (Some 9))).
  cbn. right. left. reflexivity.
Defined.

(** X7.  The end-of-stream callback is invoked by the bus handler only for an
    end-of-stream message with a callback registered. *)
Theorem callback_only_on_registered_eos msg s :
  msg <> GST_MESSAGE_EOS \/ on_eos_callback s = None ->
  count is_eos_callback (trace_of (bus_callback_func msg s)) = 0%nat.
Proof.
  intros H. break_state s.
  destruct msg as [|m|].
  - destruct H as [H | H]; [congruence|]. subst f_cb. exec.
    destruct f_stopping, f_pipe, d_run, (d_tid =? 0), (0 <? f_watch);
      reflexivity.
  - exec.
    destruct f_stopping, f_pipe, d_run, (d_tid =? 0), (0 <? f_watch);
      reflexivity.
  - reflexivity.
Qed.

Lemma callback_only_on_registered_eos_witness :
  count is_eos_callback
    (trace_of (bus_callback_func (GST_MESSAGE_ERROR "lost") playing_example))
  = 0%nat.
Proof.
  apply callback_only_on_registered_eos. left. discriminate.
Defined.

(** X8.  An error message on the bus, in any state the object can be in between
    calls: the error is logged, [stop] is run, the session is left
    [Stopped] with no pipeline and no running decoder. *)
Theorem bus_error_stops s m :
  reachable s ->
  let r := bus_callback_func (GST_MESSAGE_ERROR m) s in
  trace_of r = EvPrintErr "Backend: Error: %s\n" :: trace_of (stop s) /\
  session (state_of r) = Stopped /\
  pipeline (state_of r) = None /\
  Decoder.is_running (decoder (state_of r)) = false /\
  result_of r = true.
Proof.
  intros Hreach r. subst r. apply reachable_coherent in Hreach.
  break_state s. unfold coherent, has_pipeline in Hreach. cbn in Hreach.
  destruct f_stopping, f_playing, f_paused, f_pipe, d_run;
    try discriminate Hreach; exec;
    destruct (d_tid =? 0), (0 <? f_watch); repeat split; reflexivity.
Qed.

Lemma bus_error_stops_witness :
  session (state_of (bus_callback_func (GST_MESSAGE_ERROR "lost")
                                       playing_example)) = Stopped.
Proof.
  destruct (bus_error_stops playing_example "lost") as (_ & H & _).
  - eexists. reflexivity.
  - exact H.
Defined.

(** ** pause and the position *)

Lemma pause_state clk s :
  state_of (pause clk s) =
  set_is_paused (is_paused (state_of (pause clk s)))
    (set_last_position (last_position (state_of (pause clk s))) s).
Proof.
  destruct clk as [c bt]. break_state s.
  destruct f_pipe as [h|], f_playing, f_paused, c as [now|]; exec;
    try destruct (GST_CLOCK_TIME_IS_VALID bt); try destruct (bt <? now);
    reflexivity.
Qed.

(** X9.  [pause] touches nothing but [is_paused] and [last_position]; towards
    the outside it makes at most one call, a switch of the current pipeline
    to PAUSED or PLAYING; without a pipeline, or when not playing, it does
    nothing at all. *)
Theorem pause_footprint clk s :
  let r := pause clk s in
  state_of r =
    set_is_paused (is_paused (state_of r))
      (set_last_position (last_position (state_of r)) s) /\
  (trace_of r = [] \/
   exists h, pipeline s = Some h /\
     (trace_of r = [EvSetState h GST_STATE_PAUSED] \/
      trace_of r = [EvSetState h GST_STATE_PLAYING])) /\
  (pipeline s = None \/ is_playing s = false -> r = (tt, s, [])).
Proof.
  destruct clk as [c bt]. break_state s.
  destruct f_pipe as [h|], f_playing, f_paused, c as [now|]; exec;
    try destruct (GST_CLOCK_TIME_IS_VALID bt); try destruct (bt <? now);
    (split; [reflexivity|]); (split; [|intros [H | H]; try discriminate H;
                                        reflexivity]);
    try (left; reflexivity);
    right; exists h; (split; [reflexivity|]); auto.
Qed.

(** X10.  Once paused from a playing session with a pipeline, [get_position]
    answers the position held at the pause, whatever the clock and the base
    time read afterwards. *)
Theorem paused_position_frozen clk later s h :
  session s = Playing ->
  pipeline s = Some h ->
  session (state_of (pause clk s)) = Paused /\
  get_position later (state_of (pause clk s)) = get_position clk s.
Proof.
  intros Hsess Hp. apply session_playing in Hsess. destruct Hsess as [Hpa Hpl].
  destruct clk as [c bt], later as [c' bt']. break_state s. subst.
  destruct c as [now|]; exec;
    try destruct (GST_CLOCK_TIME_IS_VALID bt); try destruct (bt <? now);
    split; reflexivity.
Qed.

Lemma paused_position_frozen_witness :
  get_position (mkClock (Some 900) 20)
               (state_of (pause (mkClock (Some 50) 20) playing_example))
  = 1000000030.
Proof.
  apply (paused_position_frozen (mkClock (Some 50) 20) (mkClock (Some 900) 20)
           playing_example 7); reflexivity.
Defined.

(** X11.  With the base time fixed, the position never goes back as the clock
    advances, as long as the sums stay within [gint64]. *)
Theorem get_position_monotone s base now1 now2 :
  now1 <= now2 ->
  CInt.is_gint64 (last_position s) ->
  CInt.is_gint64 (last_position s + (now2 - base)) ->
  get_position (mkClock (Some now1) base) s
  <= get_position (mkClock (Some now2) base) s.
Proof.
  intros Hle Hlp Hfit. unfold CInt.is_gint64 in *.
  unfold get_position. cbn [clock base_time].
  destruct (is_paused s); [lia|].
  destruct (pipeline s); [|lia]. destruct (is_playing s); [|lia].
  destruct (GST_CLOCK_TIME_IS_VALID base); cbn [andb]; [|lia].
  destruct (Z.ltb_spec base now1), (Z.ltb_spec base now2); try lia.
  - rewrite !add_running_time.
    rewrite !to_gint64_small by (unfold CInt.is_gint64; lia). lia.
  - rewrite add_running_time.
    rewrite to_gint64_small by (unfold CInt.is_gint64; lia). lia.
Qed.

Lemma get_position_monotone_witness :
  get_position (mkClock (Some 30) 20) playing_example
  <= get_position (mkClock (Some 50) 20) playing_example.
Proof.
  apply (get_position_monotone playing_example 20 30 50);
    unfold CInt.is_gint64; cbn; lia.
Defined.

(** X12.  Right after a [play_file] in which the pipeline is built and the thread
    created, with a clock that reads after a valid base time, the position
    is the requested start time (in nanoseconds) plus the time the clock has
    run since the base time. *)
Theorem position_after_play s filepath start env h tid clk now :
  stopping s = false ->
  launched env = Some h ->
  created env = Some tid ->
  CInt.is_int start ->
  clock clk = Some now ->
  GST_CLOCK_TIME_IS_VALID (base_time clk) = true ->
  base_time clk < now ->
  CInt.is_gint64 (start * GST_SECOND + (now - base_time clk)) ->
  get_position clk (state_of (play_file filepath start env s)) =
  start * GST_SECOND + (now - base_time clk).
Proof.
  intros Hs Hl Hc Hi Hclk Hv Hlt Hfit.
  assert (Hst : let s' := state_of (play_file filepath start env s) in
                is_paused s' = false /\ is_playing s' = true /\
                pipeline s' = Some h /\
                last_position s' = CInt.to_gint64 (start * GST_SECOND)).
  { destruct env as [l bh wi c]. cbn in Hl, Hc. subst l c.
    break_state s. subst.
    destruct f_playing, f_paused, f_pipe, d_run; exec;
      destruct (d_tid =? 0), (0 <? f_watch); repeat split; reflexivity. }
  cbv zeta in Hst. destruct Hst as (H1 & H2 & H3 & H4).
  rewrite (get_position_live clk _ h now H1 H2 H3 Hclk Hv Hlt).
  rewrite H4, (int_times_second start Hi).
  apply to_gint64_small, Hfit.
Qed.

Lemma position_after_play_witness :
  get_position (mkClock (Some 50) 20)
    (state_of (play_file "a.m4a" 30 (mkPlay (Some 7) 3 5 (Some 9)) init))
  = 30 * GST_SECOND + 30.
Proof.
  apply (position_after_play init "a.m4a" 30 (mkPlay (Some 7) 3 5 (Some 9))
           7 9 (mkClock (Some 50) 20) 50);
    try reflexivity; unfold CInt.is_int, CInt.is_gint64; cbn; lia.
Defined.

Lemma pause_footprint_witness : pause (mkClock (Some 50) 20) init = (tt, init, []).
Proof.
  apply (pause_footprint (mkClock (Some 50) 20) init). left. reflexivity.
Defined.

(** ** What the calls leave alone *)

Lemma call_keeps_callback c s :
  is_set_eos_callback c = false ->
  on_eos_callback (state_of (call c s)) = on_eos_callback s /\
  eos_user_data (state_of (call c s)) = eos_user_data s.
Proof.
  intros Hc. destruct c as [f st env | clk | | cb ud | f env | msg];
    cbn [call]; try discriminate Hc.
  - destruct env as [l bh wi c]. break_state s.
    destruct f_stopping, f_playing, f_paused, f_pipe, d_run, l, c; exec;
      destruct (d_tid =? 0), (0 <? f_watch), (0 <? wi); split; reflexivity.
  - rewrite (pause_state clk s). split; reflexivity.
  - break_state s.
    destruct f_stopping, f_pipe, d_run; exec;
      destruct (d_tid =? 0), (0 <? f_watch); split; reflexivity.
  - destruct env as [o fo i2]. break_state s.
    destruct f; [|split; reflexivity]. exec.
    destruct o as [cfg|]; [|split; reflexivity].
    destruct cfg as [t1 t2 t3 cv r n fn]. cbn.
    destruct t1, t2, t3, cv, fo, i2 as [[rate ch]|]; cbn;
      repeat match goal with
             | |- context [if ?b then _ else _] =>
                 lazymatch b with
                 | (_ <? _) => destruct b
                 end
             end; split; reflexivity.
  - break_state s. destruct msg as [|m|]; [| |split; reflexivity].
    + destruct f_stopping, f_pipe, d_run, f_cb; exec;
        destruct (d_tid =? 0), (0 <? f_watch); split; reflexivity.
    + destruct f_stopping, f_pipe, d_run; exec;
        destruct (d_tid =? 0), (0 <? f_watch); split; reflexivity.
Qed.

(** X13.  The registered end-of-stream callback and its user data survive every
    history of calls that does not register again: sessions starting,
    pausing, stopping and failing, metadata reads and bus messages. *)
Theorem callback_persists calls s :
  forallb (fun c => negb (is_set_eos_callback c)) calls = true ->
  on_eos_callback (run calls s) = on_eos_callback s /\
  eos_user_data (run calls s) = eos_user_data s.
Proof.
  revert s. induction calls as [|c calls IH]; intros s H; [split; reflexivity|].
  cbn [forallb] in H. apply andb_prop in H. destruct H as [Hc H].
  apply negb_true_iff in Hc.
  change (run (c :: calls) s) with (run calls (state_of (call c s))).
  destruct (IH (state_of (call c s)) H) as [H1 H2].
  destruct (call_keeps_callback c s Hc) as [H3 H4].
  split; congruence.
Qed.

Lemma callback_persists_witness :
  on_eos_callback
    (run [CallPause (mkClock (Some 50) 20); CallStop;
          CallBus (GST_MESSAGE_ERROR "lost")] playing_example) = Some 11.
Proof.
  apply (callback_persists
           [CallPause (mkClock (Some 50) 20); CallStop;
            CallBus (GST_MESSAGE_ERROR "lost")] playing_example).
  reflexivity.
Defined.

Lemma call_keeps_metadata c s :
  is_read_metadata c = false ->
  let s' := state_of (call c s) in
  total_duration s' = total_duration s /\
  current_samplerate s' = current_samplerate s /\
  meta_title s' = meta_title s /\ meta_artist s' = meta_artist s /\
  meta_album s' = meta_album s /\ cover_art s' = cover_art s.
Proof.
  intros Hc. destruct c as [f st env | clk | | cb ud | f env | msg];
    cbn [call]; try discriminate Hc.
  - destruct env as [l bh wi c]. break_state s.
    destruct f_stopping, f_playing, f_paused, f_pipe, d_run, l, c; exec;
      destruct (d_tid =? 0), (0 <? f_watch), (0 <? wi);
      repeat split; reflexivity.
  - cbv zeta. rewrite (pause_state clk s). repeat split; reflexivity.
  - break_state s.
    destruct f_stopping, f_pipe, d_run; exec;
      destruct (d_tid =? 0), (0 <? f_watch); repeat split; reflexivity.
  - repeat split; reflexivity.
  - break_state s. destruct msg as [|m|]; [| |repeat split; reflexivity].
    + destruct f_stopping, f_pipe, d_run, f_cb; exec;
        destruct (d_tid =? 0), (0 <? f_watch); repeat split; reflexivity.
    + destruct f_stopping, f_pipe, d_run; exec;
        destruct (d_tid =? 0), (0 <? f_watch); repeat split; reflexivity.
Qed.

(** X14.  The metadata cache (duration, sample rate, tags, cover art) is written
    by [read_metadata] only: every history of other calls leaves it as it
    was. *)
Theorem metadata_persists calls s :
  forallb (fun c => negb (is_read_metadata c)) calls = true ->
  total_duration (run calls s) = total_duration s /\
  current_samplerate (run calls s) = current_samplerate s /\
  meta_title (run calls s) = meta_title s /\
  meta_artist (run calls s) = meta_artist s /\
  meta_album (run calls s) = meta_album s /\
  cover_art (run calls s) = cover_art s.
Proof.
  revert s. induction calls as [|c calls IH]; intros s H;
    [repeat split; reflexivity|].
  cbn [forallb] in H. apply andb_prop in H. destruct H as [Hc H].
  apply negb_true_iff in Hc.
  change (run (c :: calls) s) with (run calls (state_of (call c s))).
  destruct (IH (state_of (call c s)) H) as (H1 & H2 & H3 & H4 & H5 & H6).
  destruct (call_keeps_metadata c s Hc) as (K1 & K2 & K3 & K4 & K5 & K6).
  repeat split; congruence.
Qed.

Lemma metadata_persists_witness :
  current_samplerate
    (run [CallPause (mkClock (Some 50) 20); CallStop] playing_example) = 44100.
Proof.
  apply (metadata_persists [CallPause (mkClock (Some 50) 20); CallStop]
           playing_example).
  reflexivity.
Defined.

(** ** read_metadata *)

(** X15.  After a metadata read of a file that opens, with a positive declared
    sample rate and at least a nanosecond of samples, [get_duration] answers
    the file's duration, whether or not a pipeline exists and whatever the
    pipeline would answer. *)
Theorem duration_after_read_metadata s f env cfg query :
  opened env = Some cfg ->
  Mp4.well_typed cfg ->
  0 < Mp4.samplerate cfg ->
  Mp4.samplerate cfg <= Mp4.samples cfg * GST_SECOND ->
  get_duration query (state_of (read_metadata (Some f) env s)) =
  Mp4.samples cfg * GST_SECOND / Mp4.samplerate cfg.
Proof.
  intros Ho (Hr & Hn & _) Hpos Hone.
  assert (Hs : 0 < Mp4.samples cfg) by (unfold GST_SECOND in Hone; lia).
  assert (Hd : total_duration (state_of (read_metadata (Some f) env s)) =
               Mp4.samples cfg * GST_SECOND / Mp4.samplerate cfg).
  { rewrite (read_metadata_duration_opened s f env cfg Ho).
    apply Z.ltb_lt in Hpos, Hs. rewrite Hpos, Hs. cbn [andb].
    apply duration_arith; [exact Hn | apply Z.ltb_lt, Hpos]. }
  unfold get_duration. rewrite Hd.
  assert (0 < Mp4.samples cfg * GST_SECOND / Mp4.samplerate cfg)
    by (apply Z.div_str_pos; lia).
  destruct (Z.ltb_spec 0 (Mp4.samples cfg * GST_SECOND / Mp4.samplerate cfg));
    [reflexivity | lia].
Qed.

Lemma duration_after_read_metadata_witness :
  let cfg := Mp4.mk None None None None 44100 88200 87 in
  get_duration (Some 7)
    (state_of (read_metadata (Some "two.m4a")
                 (mkMeta (Some cfg) true (Some (44100, 2))) init))
  = 2 * GST_SECOND.
Proof.
  intros cfg.
  apply (duration_after_read_metadata init "two.m4a"
           (mkMeta (Some cfg) true (Some (44100, 2))) cfg (Some 7));
    try reflexivity; unfold Mp4.well_typed, CInt.is_uint32; cbn; lia.
Defined.

(** X16.  The tags and the cover art after a metadata read are those of the file
    just read, and empty where the file has none, where it does not open or
    where the path is null: nothing of an earlier file is left. *)
Theorem read_metadata_tags s filepath env :
  let s' := state_of (read_metadata filepath env s) in
  let file := match filepath with Some _ => opened env | None => None end in
  let tag (field : Mp4.config -> option string) :=
    match file with
    | Some cfg => match field cfg with Some v => v | None => "" end
    | None => ""
    end in
  meta_title s' = tag Mp4.meta_title /\
  meta_artist s' = tag Mp4.meta_artist /\
  meta_album s' = tag Mp4.meta_album /\
  cover_art s' =
    match file with
    | Some cfg => match Mp4.cover_art cfg with Some d => d | None => [] end
    | None => []
    end.
Proof.
  destruct env as [o fo i2]. break_state s.
  destruct filepath; [|repeat split; reflexivity]. exec.
  destruct o as [cfg|]; [|repeat split; reflexivity].
  destruct cfg as [t1 t2 t3 cv r n fn]. cbn.
  destruct t1, t2, t3, cv as [[|b data]|], fo, i2 as [[rate ch]|]; cbn;
    repeat match goal with
           | |- context [if ?b then _ else _] =>
               lazymatch b with
               | (_ <? _) => destruct b
               end
           end; repeat split; reflexivity.
Qed.

(** X17.  A metadata read leaves the playback alone (flags, pipeline, decoder,
    position, current path), and closes what it opens: [mp4read_close] is
    called once exactly when the file opened, [NeAACDecClose] once exactly
    when the file opened and [NeAACDecOpen] gave a handle. *)
Theorem read_metadata_footprint s filepath env :
  let r := read_metadata filepath env s in
  let file_opened :=
    match filepath, opened env with Some _, Some _ => true | _, _ => false end in
  is_playing (state_of r) = is_playing s /\
  is_paused (state_of r) = is_paused s /\
  pipeline (state_of r) = pipeline s /\
  decoder (state_of r) = decoder s /\
  last_position (state_of r) = last_position s /\
  get_current_filepath (state_of r) = get_current_filepath s /\
  stopping (state_of r) = stopping s /\
  count is_mp4_close (trace_of r) = (if file_opened then 1 else 0)%nat /\
  count is_faad_close (trace_of r) =
    (if file_opened && faad_open env then 1 else 0)%nat.
Proof.
  destruct env as [o fo i2]. break_state s.
  destruct filepath; [|repeat split; reflexivity]. exec.
  destruct o as [cfg|]; [|repeat split; reflexivity].
  destruct cfg as [t1 t2 t3 cv r n fn]. cbn.
  destruct t1, t2, t3, cv, fo, i2 as [[rate ch]|]; cbn;
    repeat match goal with
           | |- context [if ?b then _ else _] =>
               lazymatch b with
               | (_ <? _) => destruct b
               end
           end; repeat split; reflexivity.
Qed.

(** X18.  After a metadata read in which FAAD2 reports a sample rate that fits a
    positive [int], the next [play_file] builds its pipeline with that
    rate. *)
Theorem play_uses_decoder_rate s f env cfg rate channels path start penv :
  stopping s = false ->
  opened env = Some cfg ->
  faad_open env = true ->
  init2 env = Some (rate, channels) ->
  0 < rate < 2 ^ 31 ->
  In (EvParseLaunch rate)
     (trace_of (play_file path start penv
                  (state_of (read_metadata (Some f) env s)))).
Proof.
  intros Hs Ho Hf Hi Hr.
  assert (Hrate : let s' := state_of (read_metadata (Some f) env s) in
                  current_samplerate s' = rate /\ stopping s' = false).
  { destruct env as [o fo i2]. cbn in Ho, Hf, Hi. subst o fo i2.
    destruct cfg as [t1 t2 t3 cv r n fn]. break_state s. subst.
    assert (Hpos : (0 <? rate) = true) by (apply Z.ltb_lt; lia).
    assert (Hint : CInt.to_int rate = rate).
    { unfold CInt.to_int. rewrite Z.mod_small by lia. lia. }
    destruct t1, t2, t3, cv; exec; rewrite Hpos;
      repeat match goal with
             | |- context [if ?b then _ else _] =>
                 lazymatch b with
                 | (_ <? _) => destruct b
                 end
             end; (split; [exact Hint | reflexivity]). }
  cbv zeta in Hrate. destruct Hrate as [Hrate Hst].
  set (s' := state_of (read_metadata (Some f) env s)) in *.
  clearbody s'. clear Hs Ho Hf Hi.
  assert (Hpos : (0 <? rate) = true) by (apply Z.ltb_lt; lia).
  destruct penv as [l bh wi c]. break_state s'. subst.
  destruct f_playing, f_paused, f_pipe, d_run, l, c; exec;
    destruct (d_tid =? 0) eqn:Hd, (0 <? f_watch) eqn:Hw, (0 <? wi) eqn:Hwi;
    exec; rewrite ?Hd, ?Hw, ?Hwi, ?Hpos; cbn; auto 10.
Qed.

Lemma play_uses_decoder_rate_witness :
  let cfg := Mp4.mk None None None None 44100 88200 87 in
  In (EvParseLaunch 48000)
     (trace_of (play_file "two.m4a" 0 (mkPlay (Some 7) 3 5 (Some 9))
                  (state_of (read_metadata (Some "two.m4a")
                               (mkMeta (Some cfg) true (Some (48000, 2)))
                               init)))).
Proof.
  intros cfg.
  apply (play_uses_decoder_rate init "two.m4a"
           (mkMeta (Some cfg) true (Some (48000, 2))) cfg 48000 2);
    try reflexivity. lia.
Defined.


(** * Properties of the worker thread *)

Import Decoder.

(** ** The frame loop *)

Lemma frame_loop_app w fd pre script :
  Forall (fun f => fst (frame_step w fd f) = Continue) pre ->
  frame_loop w fd (pre ++ script) =
  prepend (List.concat (map (fun f => snd (frame_step w fd f)) pre))
          (frame_loop w fd script).
Proof.
  induction 1 as [|f pre Hf Hpre IH]; cbn [app map List.concat frame_loop].
  - destruct (frame_loop w fd script); reflexivity.
  - destruct (frame_step w fd f) as [ctl tr]. cbn in Hf. subst ctl.
    rewrite IH. cbn [snd].
    destruct (frame_loop w fd script); cbn; rewrite ?app_assoc; reflexivity.
Qed.

(** C6. Whatever iterations came before, an iteration of the frame loop
    whose [write] returns -1 ends the loop there (the rest of the script is
    not consumed).  When [errno] is [EPIPE] the iteration reports nothing;
    with any other [errno] it reports "Decoder: write error" through
    [perror], once. *)
Theorem write_failure_ends_loop w fd pre fe rest :
  Forall (fun f => fst (frame_step w fd f) = Continue) pre ->
  stop_seen fe = false ->
  frame_read fe = true ->
  frame_error fe <= 0 ->
  0 < frame_samples fe ->
  written fe = -1 ->
  let before := List.concat (map (fun f => snd (frame_step w fd f)) pre) in
  let body := [EvMp4Frame; EvNeAACDecDecode; EvWrite fd (write_count w (frame_samples fe))] in
  (write_errno fe = CInt.EPIPE ->
   frame_loop w fd (pre ++ fe :: rest) = Done (before ++ body) /\
   count is_error_log (snd (frame_step w fd fe)) = 0%nat) /\
  (write_errno fe <> CInt.EPIPE ->
   frame_loop w fd (pre ++ fe :: rest) =
     Done (before ++ body ++ [EvPerror "Decoder: write error"]) /\
   count is_error_log (snd (frame_step w fd fe)) = 1%nat).
Proof.
  intros Hpre Hstop Hread Herr Hsam Hw before body.
  rewrite (frame_loop_app w fd pre (fe :: rest) Hpre). fold before.
  cbn [frame_loop]. unfold frame_step.
  rewrite Hstop, Hread, Hw. cbn [negb].
  apply Z.ltb_ge in Herr. apply Z.ltb_lt in Hsam. rewrite Herr, Hsam.
  change (-1 =? -1) with true. cbv iota.
  split; intros He.
  - apply Z.eqb_eq in He. rewrite He. split; reflexivity.
  - apply Z.eqb_neq in He. rewrite He. split; reflexivity.
Qed.

Lemma write_failure_ends_loop_witness :
  let ok := mkFrame false true 0 2048 4096 0 in
  let broken := mkFrame false true 0 2048 (-1) CInt.EPIPE in
  frame_loop 32 3 ([ok] ++ broken :: [ok]) =
  Done [EvMp4Frame; EvNeAACDecDecode; EvWrite 3 4096;
        EvMp4Frame; EvNeAACDecDecode; EvWrite 3 4096].
Proof.
  intros ok broken.
  apply (proj1 (write_failure_ends_loop 32 3 [ok] broken [ok]
                  ltac:(repeat constructor) eq_refl eq_refl
                  ltac:(cbn; lia) ltac:(cbn; lia) eq_refl)).
  reflexivity.
Defined.

(** ** Binary64 arithmetic on integers *)

Lemma digits2_pos_bounds p :
  2 ^ (Zpos (digits2_pos p) - 1) <= Zpos p < 2 ^ Zpos (digits2_pos p).
Proof.
  induction p as [p IH | p IH |]; cbn [digits2_pos].
  - rewrite Pos2Z.inj_succ.
    replace (Z.succ (Zpos (digits2_pos p)) - 1)
      with (Z.succ (Zpos (digits2_pos p) - 1)) by lia.
    rewrite !Z.pow_succ_r by lia. lia.
  - rewrite Pos2Z.inj_succ.
    replace (Z.succ (Zpos (digits2_pos p)) - 1)
      with (Z.succ (Zpos (digits2_pos p) - 1)) by lia.
    rewrite !Z.pow_succ_r by lia. lia.
  - cbn. lia.
Qed.

Lemma Zdigits2_bounds n :
  0 < n -> 2 ^ (Zdigits2 n - 1) <= n < 2 ^ Zdigits2 n.
Proof.
  destruct n as [|p|p]; try lia. intros _. apply digits2_pos_bounds.
Qed.

Lemma Zdigits2_pos n : 0 < n -> 0 < Zdigits2 n.
Proof. destruct n; cbn; lia. Qed.

Lemma Zdigits2_unique n d :
  0 < d -> 2 ^ (d - 1) <= n < 2 ^ d -> Zdigits2 n = d.
Proof.
  intros Hd Hn.
  assert (Hpos : 0 < n) by (pose proof (Z.pow_pos_nonneg 2 (d - 1)); lia).
  pose proof (Zdigits2_bounds n Hpos) as Hb.
  pose proof (Zdigits2_pos n Hpos) as Hp.
  destruct (Z.lt_trichotomy (Zdigits2 n) d) as [Hlt | [Heq | Hgt]]; [|exact Heq|].
  - assert (2 ^ Zdigits2 n <= 2 ^ (d - 1)) by (apply Z.pow_le_mono_r; lia). lia.
  - assert (2 ^ d <= 2 ^ (Zdigits2 n - 1)) by (apply Z.pow_le_mono_r; lia). lia.
Qed.

Lemma Zdigits2_le n d : 0 < n -> n < 2 ^ d -> 0 <= d -> Zdigits2 n <= d.
Proof.
  intros Hn Hlt Hd. pose proof (Zdigits2_bounds n Hn) as Hb.
  destruct (Z_le_gt_dec (Zdigits2 n) d) as [H | H]; [exact H|].
  assert (2 ^ d <= 2 ^ (Zdigits2 n - 1)) by (apply Z.pow_le_mono_r; lia). lia.
Qed.

Lemma Zdigits2_shift n k :
  0 < n -> 0 <= k -> Zdigits2 (n * 2 ^ k) = Zdigits2 n + k.
Proof.
  intros Hn Hk. pose proof (Zdigits2_bounds n Hn) as Hb.
  pose proof (Zdigits2_pos n Hn) as Hp.
  apply Zdigits2_unique; [lia|].
  replace (Zdigits2 n + k - 1) with (Zdigits2 n - 1 + k) by lia.
  rewrite !Z.pow_add_r by lia.
  assert (0 < 2 ^ k) by (apply Z.pow_pos_nonneg; lia). nia.
Qed.

Lemma iter_xO p k : Zpos (Pos.iter xO p k) = Zpos p * 2 ^ Zpos k.
Proof.
  rewrite <- Z.shiftl_mul_pow2 by lia. cbn [Z.shiftl].
  apply (Pos.iter_swap_gen _ _ Zpos xO (Z.mul 2)). reflexivity.
Qed.

Lemma fexp_normal e : -1021 <= e -> fexp prec emax e = e - 53.
Proof. unfold fexp, SpecFloat.emin, prec, emax. lia. Qed.

(** A mantissa of exactly 53 bits with no lost bits is kept as it is. *)
Lemma round_aux_keeps m e :
  Zdigits2 (Zpos m) = 53 -> -1074 <= e <= 971 ->
  binary_round_aux prec emax false (Zpos m) e loc_Exact = S754_finite false m e.
Proof.
  intros Hd He. unfold binary_round_aux, shr_fexp.
  rewrite Hd, fexp_normal by lia.
  replace (53 + e - 53 - e) with 0 by lia.
  cbn [shr_record_of_loc shr shr_m loc_of_shr_record round_nearest_even].
  rewrite Hd, fexp_normal by lia.
  replace (53 + e - 53 - e) with 0 by lia.
  cbn [shr_record_of_loc shr shr_m].
  replace (e <=? emax - prec) with true; [reflexivity|].
  symmetry. apply Z.leb_le. unfold emax, prec. lia.
Qed.

Lemma normal_mantissa n :
  0 < n < 2 ^ 53 ->
  Zpos (Z.to_pos (n * 2 ^ (53 - Zdigits2 n))) = n * 2 ^ (53 - Zdigits2 n) /\
  Zdigits2 (n * 2 ^ (53 - Zdigits2 n)) = 53 /\
  1 <= Zdigits2 n <= 53.
Proof.
  intros Hn.
  assert (Hd : 1 <= Zdigits2 n <= 53).
  { split; [pose proof (Zdigits2_pos n); lia | apply Zdigits2_le; lia]. }
  assert (0 < 2 ^ (53 - Zdigits2 n)) by (apply Z.pow_pos_nonneg; lia).
  split; [apply Z2Pos.id; nia|]. split; [|exact Hd].
  rewrite Zdigits2_shift by lia. lia.
Qed.

Lemma double_of_Z_normal n : 0 < n < 2 ^ 53 -> double_of_Z n = normal n.
Proof.
  intros Hn. destruct (normal_mantissa n Hn) as (Hm & Hd53 & Hd).
  destruct n as [|p|p]; try lia.
  unfold double_of_Z, binary_normalize, binary_round, normal.
  change (Zpos (digits2_pos p)) with (Zdigits2 (Zpos p)) in *.
  rewrite Z.add_0_r, fexp_normal by lia.
  unfold shl_align. rewrite Z.sub_0_r.
  destruct (Zdigits2 (Zpos p) - 53) as [|k|k] eqn:Hk; try lia.
  - replace (53 - Zdigits2 (Zpos p)) with 0 in * by lia.
    rewrite Z.mul_1_r in *. cbn [Z.to_pos].
    apply round_aux_keeps; [exact Hd53 | lia].
  - assert (Hk' : 53 - Zdigits2 (Zpos p) = Zpos k) by lia.
    rewrite Hk' in *. rewrite <- iter_xO in *. cbn [Z.to_pos].
    apply round_aux_keeps; [exact Hd53 | lia].
Qed.

Lemma iter_pos_nat {A} (f : A -> A) p x :
  iter_pos f p x = Nat.iter (Pos.to_nat p) f x.
Proof.
  revert x. induction p as [p IH | p IH |]; intros x; cbn [iter_pos].
  - rewrite !IH, Pos2Nat.inj_xI.
    replace (S (2 * Pos.to_nat p)) with (Pos.to_nat p + (Pos.to_nat p + 1))%nat by lia.
    rewrite !Nat.iter_add. reflexivity.
  - rewrite !IH, Pos2Nat.inj_xO.
    replace (2 * Pos.to_nat p)%nat with (Pos.to_nat p + Pos.to_nat p)%nat by lia.
    rewrite Nat.iter_add. reflexivity.
  - reflexivity.
Qed.

Lemma shr_1_even m :
  0 < m ->
  shr_1 (Build_shr_record (2 * m) false false) = Build_shr_record m false false.
Proof. destruct m; try lia. reflexivity. Qed.

Lemma nat_iter_shr_exact i m :
  0 < m ->
  Nat.iter i shr_1 (Build_shr_record (m * 2 ^ Z.of_nat i) false false) =
  Build_shr_record m false false.
Proof.
  revert m. induction i as [|i IH]; intros m Hm.
  - cbn. rewrite Z.mul_1_r. reflexivity.
  - rewrite Nat.iter_succ, Nat2Z.inj_succ, Z.pow_succ_r by lia.
    replace (m * (2 * 2 ^ Z.of_nat i)) with ((2 * m) * 2 ^ Z.of_nat i) by lia.
    rewrite IH by lia. apply shr_1_even, Hm.
Qed.

(** Shifting out [k] zero bits loses nothing. *)
Lemma shr_exact m e k :
  0 < m -> 0 < k ->
  shr (Build_shr_record (m * 2 ^ k) false false) e k =
  (Build_shr_record m false false, e + k).
Proof.
  intros Hm Hk. destruct k as [|p|p]; try lia.
  unfold shr. rewrite iter_pos_nat.
  rewrite <- (positive_nat_Z p) at 1.
  rewrite nat_iter_shr_exact by lia. reflexivity.
Qed.

(** Rounding a mantissa [n * 2 ^ j] whose low [k] bits are zero, down to 53
    bits, is exact. *)
Lemma round_aux_exact n j e :
  0 < n < 2 ^ 53 ->
  53 - Zdigits2 n < j ->
  -1021 <= Zdigits2 n + j + e <= 1024 ->
  binary_round_aux prec emax false (n * 2 ^ j) e loc_Exact =
  S754_finite false (Z.to_pos (n * 2 ^ (53 - Zdigits2 n)))
    (e + (Zdigits2 n + j - 53)).
Proof.
  intros Hn Hj He. destruct (normal_mantissa n Hn) as (Hm & Hd53 & Hd).
  set (k := Zdigits2 n + j - 53).
  assert (Hsplit : n * 2 ^ j = (n * 2 ^ (53 - Zdigits2 n)) * 2 ^ k).
  { rewrite <- Z.mul_assoc, <- Z.pow_add_r by lia. f_equal. f_equal. lia. }
  assert (0 < 2 ^ (53 - Zdigits2 n)) by (apply Z.pow_pos_nonneg; lia).
  unfold binary_round_aux, shr_fexp.
  rewrite Zdigits2_shift by lia. rewrite fexp_normal by lia.
  replace (Zdigits2 n + j + e - 53 - e) with k by lia.
  cbn [shr_record_of_loc]. rewrite Hsplit, shr_exact by (subst k; nia).
  cbn [shr_m loc_of_shr_record round_nearest_even].
  rewrite Hd53, fexp_normal by lia.
  replace (53 + (e + k) - 53 - (e + k)) with 0 by lia.
  cbn [shr_record_of_loc shr shr_m].
  rewrite <- Hm.
  replace (e + k <=? emax - prec) with true; [reflexivity|].
  symmetry. apply Z.leb_le. unfold emax, prec. lia.
Qed.

(** The product of two integers, when below [2 ^ 53], is computed exactly. *)
Lemma SFmul_normal a b :
  0 < a -> 0 < b -> a * b < 2 ^ 53 ->
  SFmul prec emax (normal a) (normal b) = normal (a * b).
Proof.
  intros Ha Hb Hab.
  assert (Ha' : 0 < a < 2 ^ 53) by nia.
  assert (Hb' : 0 < b < 2 ^ 53) by nia.
  assert (Hn : 0 < a * b < 2 ^ 53) by nia.
  destruct (normal_mantissa a Ha') as (Hma & _ & Hda).
  destruct (normal_mantissa b Hb') as (Hmb & _ & Hdb).
  destruct (normal_mantissa (a * b) Hn) as (_ & _ & Hdn).
  unfold normal at 1 2. unfold SFmul. cbn [xorb].
  rewrite Pos2Z.inj_mul, Hma, Hmb.
  replace (a * 2 ^ (53 - Zdigits2 a) * (b * 2 ^ (53 - Zdigits2 b)))
    with (a * b * 2 ^ (106 - Zdigits2 a - Zdigits2 b)).
  2:{ replace (106 - Zdigits2 a - Zdigits2 b)
        with ((53 - Zdigits2 a) + (53 - Zdigits2 b)) by lia.
      rewrite Z.pow_add_r by lia. ring. }
  assert (Hlow : Zdigits2 a + Zdigits2 b - 1 <= Zdigits2 (a * b)).
  { pose proof (Zdigits2_bounds a Ha) as Ba.
    pose proof (Zdigits2_bounds b Hb) as Bb.
    pose proof (Zdigits2_bounds (a * b) ltac:(lia)) as Bn.
    destruct (Z_le_gt_dec (Zdigits2 a + Zdigits2 b - 1) (Zdigits2 (a * b)))
      as [H | H]; [exact H|].
    assert (2 ^ Zdigits2 (a * b) <= 2 ^ (Zdigits2 a - 1 + (Zdigits2 b - 1)))
      by (apply Z.pow_le_mono_r; lia).
    rewrite Z.pow_add_r in * by lia. nia. }
  rewrite round_aux_exact by lia.
  unfold normal. f_equal. lia.
Qed.
(** Rounding the scaled quotient to nearest cannot reach the next integer. *)
Lemma trunc_rounded n c k M :
  0 < n < 2 ^ 53 -> 0 < c -> 0 <= k ->
  2 ^ 52 <= (n * 2 ^ k) / c ->
  M = (n * 2 ^ k) / c \/
  (M = (n * 2 ^ k) / c + 1 /\ c <= 2 * ((n * 2 ^ k) mod c)) ->
  M / 2 ^ k = n / c.
Proof.
  intros Hn Hc Hk Hbig HM.
  assert (Hp : 0 < 2 ^ k) by (apply Z.pow_pos_nonneg; lia).
  assert (Hfloor : (n * 2 ^ k) / c / 2 ^ k = n / c).
  { rewrite Z.div_div by lia. apply Z.div_mul_cancel_r; lia. }
  destruct HM as [-> | [-> Hup]]; [exact Hfloor|].
  set (A := n * 2 ^ k) in *.
  pose proof (Z.div_mod A c ltac:(lia)) as HA.
  pose proof (Z.mod_pos_bound A c Hc) as HAr.
  pose proof (Z.div_mod n c ltac:(lia)) as Hn'.
  pose proof (Z.mod_pos_bound n c Hc) as Hnr.
  pose proof (Z.div_mod (A / c) (2 ^ k) ltac:(lia)) as HM.
  pose proof (Z.mod_pos_bound (A / c) (2 ^ k) Hp) as HMr.
  rewrite Hfloor in HM.
  set (q0 := n / c) in *. set (t := n mod c) in *.
  set (u := (A / c) mod 2 ^ k) in *. set (M0 := A / c) in *.
  set (rA := A mod c) in *.
  (* M0 = 2^k q0 + u, 0 <= u < 2^k *)
  destruct (Z_lt_ge_dec (u + 1) (2 ^ k)) as [Hlt | Hge].
  - symmetry. apply (Z.div_unique (M0 + 1) (2 ^ k) q0 (u + 1)); lia.
  - exfalso. assert (Hu : u = 2 ^ k - 1) by lia.
    (* A = c * M0 + rA, M0 = 2^k q0 + 2^k - 1, A = (c q0 + t) 2^k *)
    assert (H1 : t * 2 ^ k = c * (2 ^ k - 1) + rA) by (subst A; nia).
    (* c <= 2 rA  ->  2^(k+1) (c - t) <= c *)
    assert (H2 : 2 * 2 ^ k * (c - t) <= c) by nia.
    assert (H3 : 2 * 2 ^ k <= c) by nia.
    (* M0 <= A / c < 2^52 *)
    assert (H4 : c * M0 <= n * 2 ^ k) by (subst A; lia).
    assert (H5 : 2 * 2 ^ k * M0 <= c * M0) by nia.
    assert (H6 : 2 * M0 <= n) by nia.
    lia.
Qed.

(** The quotient bit: halving a doubled dividend's quotient. *)
Lemma half_quotient A c :
  0 <= A -> 0 < c ->
  (2 * A / c) / 2 = A / c /\
  (Z.odd (2 * A / c) = true -> c <= 2 * (A mod c)).
Proof.
  intros HA Hc.
  pose proof (Z.div_mod A c ltac:(lia)) as H1.
  pose proof (Z.mod_pos_bound A c Hc) as H2.
  split.
  - rewrite Z.div_div by lia. rewrite (Z.mul_comm c 2).
    apply Z.div_mul_cancel_l; lia.
  - intros Hodd.
    destruct (Z_le_gt_dec c (2 * (A mod c))) as [H | H]; [exact H|].
    assert (Hq : 2 * A / c = 2 * (A / c)).
    { symmetry. apply (Z.div_unique (2 * A) c (2 * (A / c)) (2 * (A mod c))); lia. }
    rewrite Hq, Z.odd_mul in Hodd. discriminate Hodd.
Qed.

Lemma double_trunc_finite m e :
  double_trunc (S754_finite false m e) = Some (ipart (Zpos m) e).
Proof.
  unfold double_trunc, ipart, cond_Zopp. destruct e; cbn [Z.leb Z.compare].
  - rewrite Z.mul_1_r. reflexivity.
  - reflexivity.
  - reflexivity.
Qed.

Lemma ipart_neg M k : 0 <= k -> ipart M (- k) = M / 2 ^ k.
Proof.
  intros Hk. unfold ipart. destruct (Z.leb_spec 0 (- k)).
  - replace k with 0 by lia. cbn. rewrite Z.mul_1_r, Z.div_1_r. reflexivity.
  - rewrite Z.opp_involutive. reflexivity.
Qed.

Lemma ipart_renorm E : ipart (2 ^ 52) (E + 1) = ipart (2 ^ 53) E.
Proof.
  unfold ipart. destruct (Z.leb_spec 0 E), (Z.leb_spec 0 (E + 1)); try lia.
  - rewrite Z.pow_add_r by lia. lia.
  - replace E with (-1) by lia. reflexivity.
  - replace (- E) with (1 + - (E + 1)) by lia.
    rewrite Z.pow_add_r by lia.
    change (2 ^ 53) with (2 ^ 52 * 2 ^ 1). rewrite (Z.mul_comm (2 ^ 1)).
    assert (0 < 2 ^ (- (E + 1))) by (apply Z.pow_pos_nonneg; lia).
    symmetry. apply Z.div_mul_cancel_r; lia.
Qed.

Lemma new_location_upper m r :
  0 < m -> 0 <= r < m -> upper (new_location m r) = true -> m <= 2 * r.
Proof.
  intros Hm Hr. unfold new_location, new_location_even, new_location_odd.
  destruct (Z.even m), (r =? 0); cbn [upper]; try discriminate.
  - destruct (Z.compare_spec (2 * r) m); cbn [upper]; try discriminate; lia.
  - destruct (Z.compare_spec (2 * r + 1) m); cbn [upper]; try discriminate; lia.
Qed.

Lemma record_of_loc m l :
  shr_m (shr_record_of_loc m l) = m /\
  shr_r (shr_record_of_loc m l) = upper l /\
  loc_of_shr_record (shr_record_of_loc m l) = l.
Proof. destruct l as [|[]]; repeat split; reflexivity. Qed.

Lemma shr_1_fields mrs :
  2 <= shr_m mrs ->
  shr_m (shr_1 mrs) = shr_m mrs / 2 /\ shr_r (shr_1 mrs) = Z.odd (shr_m mrs).
Proof.
  destruct mrs as [m r s]. cbn [shr_m]. intros Hm.
  destruct m as [|[p|p|]|]; try lia; cbn [shr_1 shr_m shr_r Z.odd].
  - split; [|reflexivity].
    apply (Z.div_unique (Zpos p~1) 2 (Zpos p) 1); lia.
  - split; [|reflexivity].
    apply (Z.div_unique (Zpos p~0) 2 (Zpos p) 0); lia.
Qed.

Lemma round_nearest_even_cases mrs :
  let M := round_nearest_even (shr_m mrs) (loc_of_shr_record mrs) in
  M = shr_m mrs \/ (M = shr_m mrs + 1 /\ shr_r mrs = true).
Proof.
  destruct mrs as [m [] []]; cbn; try destruct (Z.even m); auto.
Qed.

Lemma binary_round_aux_finish mx ex lx :
  binary_round_aux prec emax false mx ex lx =
  let '(mrs, e) := shr_fexp prec emax mx ex lx in
  finish (round_nearest_even (shr_m mrs) (loc_of_shr_record mrs)) e.
Proof. reflexivity. Qed.

Lemma finish_spec M e :
  2 ^ 52 <= M <= 2 ^ 53 -> -1074 <= e <= 900 ->
  exists m' e',
    finish M e = S754_finite false m' e' /\ ipart (Zpos m') e' = ipart M e.
Proof.
  intros HM He. unfold finish, shr_fexp.
  destruct (Z_lt_ge_dec M (2 ^ 53)) as [Hlt | Hge].
  - rewrite (Zdigits2_unique M 53) by lia. rewrite fexp_normal by lia.
    replace (53 + e - 53 - e) with 0 by lia.
    cbn [shr_record_of_loc shr shr_m].
    destruct M as [|m|m]; try lia.
    replace (e <=? emax - prec) with true
      by (symmetry; apply Z.leb_le; unfold emax, prec; lia).
    exists m, e. split; reflexivity.
  - assert (M = 2 ^ 53) by lia. subst M.
    rewrite (Zdigits2_unique (2 ^ 53) 54) by lia. rewrite fexp_normal by lia.
    replace (54 + e - 53 - e) with 1 by lia.
    change (shr (shr_record_of_loc (2 ^ 53) loc_Exact) e 1)
      with (Build_shr_record (2 ^ 52) false false, e + 1).
    cbn [shr_m]. change (2 ^ 52) with (Zpos (Z.to_pos (2 ^ 52))) at 1.
    cbv iota.
    replace (e + 1 <=? emax - prec) with true
      by (symmetry; apply Z.leb_le; unfold emax, prec; lia).
    eexists _, _. split; [reflexivity|]. apply ipart_renorm.
Qed.

(** Rounding a quotient mantissa of 53 or 54 bits to nearest even. *)
Lemma round_aux_quotient q e l :
  2 ^ 52 <= q < 2 ^ 54 -> -1074 <= e <= 800 ->
  exists m' e' M E,
    binary_round_aux prec emax false q e l = S754_finite false m' e' /\
    ipart (Zpos m') e' = ipart M E /\
    ((q < 2 ^ 53 /\ E = e /\ (M = q \/ (M = q + 1 /\ upper l = true))) \/
     (2 ^ 53 <= q /\ E = e + 1 /\
      (M = q / 2 \/ (M = q / 2 + 1 /\ Z.odd q = true)))).
Proof.
  intros Hq He. rewrite binary_round_aux_finish. unfold shr_fexp.
  destruct (record_of_loc q l) as (Hm & Hr & Hl).
  destruct (Z_lt_ge_dec q (2 ^ 53)) as [Hlt | Hge].
  - rewrite (Zdigits2_unique q 53) by lia. rewrite fexp_normal by lia.
    replace (53 + e - 53 - e) with 0 by lia. cbn [shr].
    pose proof (round_nearest_even_cases (shr_record_of_loc q l)) as Hc.
    cbv zeta in Hc.
    set (M := round_nearest_even (shr_m (shr_record_of_loc q l))
                (loc_of_shr_record (shr_record_of_loc q l))) in *.
    rewrite Hm, Hr in Hc.
    destruct (finish_spec M e) as (m' & e' & Hf & Hi); [lia | lia |].
    exists m', e', M, e. split; [exact Hf|]. split; [exact Hi|].
    left. split; [exact Hlt|]. split; [reflexivity | exact Hc].
  - rewrite (Zdigits2_unique q 54) by lia. rewrite fexp_normal by lia.
    replace (54 + e - 53 - e) with 1 by lia.
    change (shr (shr_record_of_loc q l) e 1)
      with (shr_1 (shr_record_of_loc q l), e + 1).
    destruct (shr_1_fields (shr_record_of_loc q l)) as (H1m & H1r);
      [rewrite Hm; lia|].
    rewrite Hm in H1m, H1r.
    pose proof (round_nearest_even_cases (shr_1 (shr_record_of_loc q l))) as Hc.
    cbv zeta in Hc.
    set (M := round_nearest_even (shr_m (shr_1 (shr_record_of_loc q l)))
                (loc_of_shr_record (shr_1 (shr_record_of_loc q l)))) in *.
    rewrite H1m, H1r in Hc.
    assert (Hhalf : 2 ^ 52 <= q / 2 < 2 ^ 53).
    { split; [apply Z.div_le_lower_bound; lia
             | apply Z.div_lt_upper_bound; lia]. }
    destruct (finish_spec M (e + 1)) as (m' & e' & Hf & Hi); [lia | lia |].
    exists m', e', M, (e + 1). split; [exact Hf|]. split; [exact Hi|].
    right. split; [lia|]. split; [reflexivity | exact Hc].
Qed.

Lemma div_core m1 e1 m2 e2 :
  Zdigits2 m1 = 53 -> Zdigits2 m2 = 53 -> -900 <= e1 - e2 <= 900 ->
  SFdiv_core_binary prec emax m1 e1 m2 e2 =
  ((m1 * 2 ^ 53) / m2, e1 - e2 - 53, new_location m2 ((m1 * 2 ^ 53) mod m2)).
Proof.
  intros H1 H2 He. unfold SFdiv_core_binary.
  rewrite H1, H2, fexp_normal by lia.
  rewrite Z.min_l by lia.
  replace (e1 - e2 - (53 + e1 - (53 + e2) - 53)) with 53 by lia.
  cbv iota. rewrite Z.shiftl_mul_pow2 by lia.
  unfold Z.div, Z.modulo.
  destruct (Z.div_eucl (m1 * 2 ^ 53) m2) as [q r].
  f_equal. f_equal. lia.
Qed.

(** Dividing two integers in [double] and truncating gives the integer
    quotient, as long as the dividend is below [2 ^ 53]. *)
Lemma SFdiv_normal_trunc n c :
  0 < n < 2 ^ 53 -> 0 < c < 2 ^ 53 ->
  double_trunc (SFdiv prec emax (normal n) (normal c)) = Some (n / c).
Proof.
  intros Hn Hc.
  destruct (normal_mantissa n Hn) as (Hmn & Hdn53 & Hdn).
  destruct (normal_mantissa c Hc) as (Hmc & Hdc53 & Hdc).
  unfold normal, SFdiv.
  set (j := 53 - Zdigits2 c) in *.
  set (k0 := 53 - Zdigits2 n + Zdigits2 c).
  assert (Hj : 0 < 2 ^ j) by (apply Z.pow_pos_nonneg; lia).
  assert (Hm1 : n * 2 ^ (53 - Zdigits2 n) * 2 ^ 53 = n * 2 ^ k0 * 2 ^ j).
  { rewrite <- !Z.mul_assoc, <- !Z.pow_add_r by lia. f_equal. f_equal.
    subst j k0. lia. }
  assert (Hpn : 0 < n * 2 ^ (53 - Zdigits2 n)) by lia.
  assert (Hpc : 0 < c * 2 ^ j) by nia.
  pose proof (Zdigits2_bounds _ Hpn) as Bn.
  pose proof (Zdigits2_bounds _ Hpc) as Bc.
  rewrite Hdn53 in Bn. rewrite Hdc53 in Bc.
  change (2 ^ (53 - 1)) with (2 ^ 52) in *.
  rewrite Hmn, Hmc. rewrite div_core by lia.
  cbn [xorb]. rewrite Hm1.
  rewrite Z.div_mul_cancel_r by lia. rewrite Z.mul_mod_distr_r by lia.
  set (q := n * 2 ^ k0 / c).
  assert (Hq : 2 ^ 52 <= q < 2 ^ 54).
  { subst q. rewrite <- (Z.div_mul_cancel_r _ _ (2 ^ j)) by lia.
    rewrite <- Hm1. split.
    - apply Z.div_le_lower_bound; nia.
    - apply Z.div_lt_upper_bound; nia. }
  destruct (round_aux_quotient q (Zdigits2 n - 53 - (Zdigits2 c - 53) - 53)
              (new_location (c * 2 ^ j) ((n * 2 ^ k0) mod c * 2 ^ j)) Hq)
    as (m' & e' & M & E & Hr & Hi & Hcases); [lia|].
  rewrite Hr, double_trunc_finite, Hi. f_equal.
  assert (Hp0 : 0 < 2 ^ k0) by (apply Z.pow_pos_nonneg; subst k0; lia).
  destruct Hcases as [(Hlt & -> & HM) | (Hge & -> & HM)].
  - replace (Zdigits2 n - 53 - (Zdigits2 c - 53) - 53) with (- k0) by (subst k0; lia).
    rewrite ipart_neg by (subst k0; lia).
    apply trunc_rounded; [exact Hn | lia | subst k0; lia | fold q; lia |].
    fold q. destruct HM as [HM | [HM Hup]]; [left; exact HM | right].
    split; [exact HM|].
    apply new_location_upper in Hup.
    + nia.
    + nia.
    + pose proof (Z.mod_pos_bound (n * 2 ^ k0) c ltac:(lia)). nia.
  - replace (Zdigits2 n - 53 - (Zdigits2 c - 53) - 53 + 1) with (- (k0 - 1))
      by (subst k0; lia).
    rewrite ipart_neg by (subst k0; lia).
    assert (HA : n * 2 ^ k0 = 2 * (n * 2 ^ (k0 - 1))).
    { replace k0 with (1 + (k0 - 1)) at 1 by lia.
      rewrite Z.pow_add_r by (subst k0; lia). change (2 ^ 1) with 2. ring. }
    assert (0 < 2 ^ (k0 - 1)) by (apply Z.pow_pos_nonneg; subst k0; lia).
    destruct (half_quotient (n * 2 ^ (k0 - 1)) c ltac:(nia) ltac:(lia))
      as (Hhalf & Hodd).
    rewrite <- HA in Hhalf, Hodd. fold q in Hhalf, Hodd.
    apply trunc_rounded; [exact Hn | lia | subst k0; lia | rewrite <- Hhalf |].
    + apply Z.div_le_lower_bound; lia.
    + rewrite <- Hhalf.
      destruct HM as [HM | [HM Ho]]; [left; exact HM | right].
      split; [exact HM | apply Hodd, Ho].
Qed.

(** The target frame computed in [double] is the integer quotient. *)
Lemma target_frame_exact w s r c :
  0 < s < 2 ^ 53 -> 0 <= r -> s * r < 2 ^ 53 -> 0 < c < 2 ^ 53 ->
  s * r / c < 2 ^ w ->
  target_frame w s r c = Some (s * r / c).
Proof.
  intros Hs Hr Hsr Hc Hw. unfold target_frame, double_to_ulong.
  assert (Hq : 0 <= s * r / c) by (apply Z.div_pos; nia).
  assert (Hfit : (0 <=? s * r / c) && (s * r / c <? 2 ^ w) = true).
  { apply andb_true_intro. split; [apply Z.leb_le | apply Z.ltb_lt]; lia. }
  rewrite (double_of_Z_normal s Hs), (double_of_Z_normal c Hc).
  destruct (Z.eq_dec r 0) as [-> | Hr0].
  - rewrite Z.mul_0_r in *. change (0 / c) with 0 in *.
    unfold normal at 1. cbn [double_of_Z binary_normalize SFmul xorb].
    unfold normal. cbn [SFdiv xorb double_trunc]. rewrite Hfit. reflexivity.
  - rewrite (double_of_Z_normal r) by nia.
    rewrite SFmul_normal by lia.
    rewrite SFdiv_normal_trunc by lia.
    rewrite Hfit. reflexivity.
Qed.

(** Beyond 53 bits the product is rounded in [double]: the bound on
    [s * r] above cannot be dropped. *)
Example target_frame_rounds_beyond_53_bits :
  target_frame 64 2147483647 4294967295 1 = Some 9223372030412324864 /\
  2147483647 * 4294967295 / 1 = 9223372030412324865.
Proof. split; vm_compute; reflexivity. Qed.

(** With a frame size of zero the quotient is infinite and the cast has no
    defined value. *)
Example target_frame_zero_frame_size : target_frame 64 30 44100 0 = None.
Proof. vm_compute. reflexivity. Qed.



(** With 64-bit [unsigned long] a frame of [2 ^ 63] samples is written as
    zero bytes. *)
Example write_count_wraps : write_count 64 (2 ^ 63) = 0.
Proof. vm_compute. reflexivity. Qed.

Lemma frame_step_ends w fd fe :
  fst (frame_step w fd fe) = Break <-> ends_loop fe = true.
Proof.
  unfold frame_step, ends_loop.
  destruct (stop_seen fe), (frame_read fe), (0 <? frame_error fe),
    (0 <? frame_samples fe), (written fe =? -1),
    (write_errno fe =? CInt.EPIPE); cbn; split; intros H;
    try reflexivity; try discriminate H.
Qed.

(** The frame loop returns once some iteration ends it. *)
Lemma frame_loop_returns w fd script :
  existsb ends_loop script = true ->
  exists tr, frame_loop w fd script = Done tr.
Proof.
  induction script as [|fe rest IH]; cbn [existsb frame_loop]; [discriminate|].
  pose proof (frame_step_ends w fd fe) as Hends.
  destruct (frame_step w fd fe) as [[] tr0]; cbn [fst] in Hends; [|eauto].
  destruct (ends_loop fe); [destruct Hends as [_ H]; discriminate (H eq_refl)|].
  cbn [orb]. intros H. destruct (IH H) as [tr Htr]. rewrite Htr. cbn. eauto.
Qed.

Lemma frame_step_no_seek w fd fe : count is_seek (snd (frame_step w fd fe)) = 0%nat.
Proof.
  unfold frame_step.
  destruct (stop_seen fe), (frame_read fe), (0 <? frame_error fe),
    (0 <? frame_samples fe), (written fe =? -1), (write_errno fe =? CInt.EPIPE);
    reflexivity.
Qed.

Lemma frame_loop_no_seek w fd script tr :
  frame_loop w fd script = Done tr -> count is_seek tr = 0%nat.
Proof.
  revert tr. induction script as [|fe rest IH]; intros tr; cbn [frame_loop].
  - discriminate.
  - pose proof (frame_step_no_seek w fd fe) as Hstep.
    destruct (frame_step w fd fe) as [[] tr0]; cbn [snd] in Hstep.
    + destruct (frame_loop w fd rest) as [tr1| |]; cbn [prepend]; try discriminate.
      intros H. injection H as <-. rewrite count_app, Hstep, (IH tr1 eq_refl).
      reflexivity.
    + intros H. injection H as <-. exact Hstep.
Qed.


(** The shape of a run that got as far as the seek block: it returns once
    the pipe does not open or some iteration ends the frame loop, and
    leaves the set-up, the events of the seek block and a rest without
    [mp4read_seek]. *)
Lemma decode_loop_returns w d env cfg samplerate channels seek_trace :
  opened env = Some cfg ->
  faad_open env = true ->
  init2 env = Some (samplerate, channels) ->
  seek_if_requested w d cfg samplerate (seek_ok env) = Done seek_trace ->
  pipe_fd env = None \/ existsb ends_loop (frames env) = true ->
  exists rest,
    decode_loop w d env =
      Done ([EvPrint "Decoder: Starting for %s\n"; EvMp4Open; EvNeAACDecOpen;
             EvNeAACDecInit2; EvPrint "Decoder: Starting for %d %d\n"]
            ++ seek_trace ++ rest) /\
    count is_seek rest = 0%nat.
Proof.
  intros Ho Hf Hi Hseek Hend. unfold decode_loop.
  rewrite Ho, Hf, Hi, Hseek. cbn [negb].
  destruct (pipe_fd env) as [fd|].
  - destruct Hend as [Hend | Hend]; [discriminate Hend|].
    destruct (frame_loop_returns w fd _ Hend) as [ltr Hloop].
    rewrite Hloop. cbn [prepend].
    exists ([EvOpenPipe] ++ ltr ++
            [EvClose fd; EvNeAACDecClose; EvMp4Close;
             EvPrint "Decoder: Thread exiting.\n"]).
    split; [cbn [app]; rewrite <- !app_assoc; reflexivity|].
    rewrite !count_app, (frame_loop_no_seek _ _ _ _ Hloop). reflexivity.
  - cbn [prepend].
    exists [EvOpenPipe; EvPerror "Decoder: Failed to open pipe";
            EvNeAACDecClose; EvMp4Close].
    split; [cbn [app]; rewrite <- !app_assoc; reflexivity | reflexivity].
Qed.




(** * Further properties of the worker thread and of the decoder object *)

(** ** Decoder::start and Decoder::stop *)

(** X19.  Starting a decoder that is already running joins the old thread before
    the new one is created. *)
Theorem decoder_restart_joins_first d f st tid :
  running d = true ->
  thread_id d <> 0 ->
  let r := start f st (Some tid) d in
  trace_of r = [EvThreadJoin (thread_id d); EvThreadCreate tid] /\
  state_of r = mk f st false true tid /\
  result_of r = true.
Proof.
  intros Hr Ht. destruct d as [p s0 fl rn old]. cbn in Hr, Ht. subst rn.
  apply Z.eqb_neq in Ht. cbv - [Z.eqb]. rewrite Ht. cbv.
  repeat split; reflexivity.
Qed.

Lemma decoder_restart_joins_first_witness :
  trace_of (start "b.m4a" 0 (Some 10) (mk "a.m4a" 0 false true 9)) =
  [EvThreadJoin 9; EvThreadCreate 10].
Proof.
  apply (decoder_restart_joins_first (mk "a.m4a" 0 false true 9) "b.m4a" 0 10).
  - reflexivity.
  - cbn. lia.
Defined.

(** X20.  A [start] whose [pthread_create] fails answers false, creates no thread
    and leaves the decoder not running, whatever state it was in. *)
Theorem decoder_start_failure d f st :
  let r := start f st None d in
  result_of r = false /\
  is_running (state_of r) = false /\
  count is_thread_create (trace_of r) = 0%nat /\
  count is_error_log (trace_of r) = 1%nat.
Proof.
  destruct d as [p s0 fl rn old].
  destruct rn; cbv - [Z.eqb]; destruct (old =? 0); repeat split; reflexivity.
Qed.

(** X21.  [stop] after a successful [start] joins exactly the thread that was
    created and leaves the decoder without thread; a further [stop] does
    nothing. *)
Theorem decoder_start_stop d f st tid :
  tid <> 0 ->
  running d = false ->
  let started := state_of (start f st (Some tid) d) in
  let stopped := state_of (stop started) in
  trace_of (stop started) = [EvThreadJoin tid] /\
  is_running stopped = false /\
  thread_id stopped = 0 /\
  stop stopped = (tt, stopped, []).
Proof.
  intros Ht Hr. destruct d as [p s0 fl rn old]. cbn in Hr. subst rn.
  apply Z.eqb_neq in Ht. cbv - [Z.eqb]. rewrite Ht. cbv.
  repeat split; reflexivity.
Qed.

Lemma decoder_start_stop_witness :
  trace_of (stop (state_of (start "a.m4a" 0 (Some 9) Decoder.init))) =
  [EvThreadJoin 9].
Proof.
  apply (decoder_start_stop Decoder.init "a.m4a" 0 9).
  - lia.
  - reflexivity.
Defined.

(** ** The frame loop *)

(** X22.  The frame loop returns exactly when some iteration sees the stop flag,
    fails to read a frame or fails to write; a decode warning or a frame
    without samples never ends it. *)
Theorem frame_loop_ends w fd script :
  (existsb ends_loop script = true ->
   exists tr, frame_loop w fd script = Done tr) /\
  (existsb ends_loop script = false -> frame_loop w fd script = Starved).
Proof.
  induction script as [|fe rest [IH1 IH2]]; cbn [existsb frame_loop].
  - split; [discriminate | reflexivity].
  - pose proof (frame_step_ends w fd fe) as Hends.
    destruct (frame_step w fd fe) as [[] tr0]; cbn [fst] in Hends.
    + destruct (ends_loop fe); [destruct Hends as [_ H]; discriminate (H eq_refl)|].
      cbn [orb]. split; intros H.
      * destruct (IH1 H) as [tr Htr]. rewrite Htr. cbn. eauto.
      * rewrite (IH2 H). reflexivity.
    + rewrite (proj1 Hends eq_refl). cbn [orb]. split; [eauto | discriminate].
Qed.

Lemma frame_loop_ends_witness :
  (exists tr, frame_loop 32 3 [mkFrame false true 1 0 0 0;
                            mkFrame true true 0 0 0 0] = Done tr) /\
  frame_loop 32 3 [mkFrame false true 1 0 0 0] = Starved.
Proof.
  split.
  - apply (proj1 (frame_loop_ends 32 3 _)). reflexivity.
  - apply (proj2 (frame_loop_ends 32 3 _)). reflexivity.
Defined.

(** X23.  After any iterations that continue, an iteration that sees the stop
    flag ends the loop without reading another frame, and one whose
    [mp4read_frame] fails ends it right after that call; neither reports an
    error. *)
Theorem stop_or_end_of_data_ends_loop w fd pre fe rest :
  Forall (fun f => fst (frame_step w fd f) = Continue) pre ->
  let before := List.concat (map (fun f => snd (frame_step w fd f)) pre) in
  (stop_seen fe = true ->
   frame_loop w fd (pre ++ fe :: rest) = Done before) /\
  (stop_seen fe = false -> frame_read fe = false ->
   frame_loop w fd (pre ++ fe :: rest) = Done (before ++ [EvMp4Frame])).
Proof.
  intros Hpre before.
  rewrite (frame_loop_app w fd pre (fe :: rest) Hpre). fold before.
  cbn [frame_loop]. unfold frame_step. split.
  - intros ->. cbn [prepend]. rewrite app_nil_r. reflexivity.
  - intros -> ->. reflexivity.
Qed.

Lemma stop_or_end_of_data_ends_loop_witness :
  let ok := mkFrame false true 0 2048 4096 0 in
  frame_loop 32 3 ([ok] ++ mkFrame true true 0 2048 4096 0 :: [ok]) =
  Done [EvMp4Frame; EvNeAACDecDecode; EvWrite 3 4096].
Proof.
  intros ok.
  apply (proj1 (stop_or_end_of_data_ends_loop 32 3 [ok]
                  (mkFrame true true 0 2048 4096 0) [ok]
                  ltac:(repeat constructor))).
  reflexivity.
Defined.





(** ** The whole run of the worker *)

Lemma count_none p q tr :
  (forall e, q e = true -> p e = false) ->
  forallb q tr = true -> count p tr = 0%nat.
Proof.
  intros Hpq. induction tr as [|e tr IH]; [reflexivity|].
  cbn [forallb]. intros H. apply andb_prop in H. destruct H as [He Htr].
  unfold count in *. cbn [filter]. rewrite (Hpq e He). apply IH, Htr.
Qed.

Lemma frame_step_events w fd fe :
  forallb is_loop_event (snd (frame_step w fd fe)) = true.
Proof.
  unfold frame_step.
  destruct (stop_seen fe), (frame_read fe), (0 <? frame_error fe),
    (0 <? frame_samples fe), (written fe =? -1),
    (write_errno fe =? CInt.EPIPE); reflexivity.
Qed.

Lemma frame_loop_events w fd script tr :
  frame_loop w fd script = Done tr -> forallb is_loop_event tr = true.
Proof.
  revert tr. induction script as [|fe rest IH]; intros tr; cbn [frame_loop];
    [discriminate|].
  pose proof (frame_step_events w fd fe) as Hstep.
  destruct (frame_step w fd fe) as [[] tr0]; cbn [snd] in Hstep.
  - destruct (frame_loop w fd rest) as [tr1| |]; cbn [prepend]; try discriminate.
    intros H. injection H as <-.
    rewrite forallb_app, Hstep, (IH tr1 eq_refl). reflexivity.
  - intros H. injection H as <-. exact Hstep.
Qed.

Lemma seek_block_events w d cfg samplerate seek_ok tr :
  seek_if_requested w d cfg samplerate seek_ok = Done tr ->
  forallb is_seek_block_event tr = true.
Proof.
  unfold seek_if_requested.
  destruct (0 <? start_time d); [|intros H; injection H as <-; reflexivity].
  destruct (target_frame w (start_time d) samplerate (samples_per_frame cfg))
    as [target|]; [|discriminate].
  destruct (target <? Mp4.frame_nsamples cfg), (seek_ok target);
    intros H; injection H as <-; reflexivity.
Qed.

(** The run of the worker, case by case.  [setup] is the part up to the
    seek block, [body] what the frame loop did. *)
Lemma decode_loop_cases w d env tr :
  decode_loop w d env = Done tr ->
  (opened env = None /\
   tr = [EvPrint "Decoder: Starting for %s\n"; EvMp4Open;
         EvPrintErr "Decoder: Failed to open file with mp4read: %s\n"]) \/
  (exists cfg, opened env = Some cfg /\ faad_open env = false /\
   tr = [EvPrint "Decoder: Starting for %s\n"; EvMp4Open; EvNeAACDecOpen;
         EvPrintErr "Decoder: Failed to open FAAD2 decoder\n"; EvMp4Close]) \/
  (exists cfg, opened env = Some cfg /\ faad_open env = true /\
   init2 env = None /\
   tr = [EvPrint "Decoder: Starting for %s\n"; EvMp4Open; EvNeAACDecOpen;
         EvNeAACDecInit2;
         EvPrintErr "Decoder: Failed to initialize FAAD2 with ASC\n";
         EvNeAACDecClose; EvMp4Close]) \/
  (exists cfg samplerate channels seek_trace,
     opened env = Some cfg /\ faad_open env = true /\
     init2 env = Some (samplerate, channels) /\
     seek_if_requested w d cfg samplerate (seek_ok env) = Done seek_trace /\
     let setup := [EvPrint "Decoder: Starting for %s\n"; EvMp4Open;
                   EvNeAACDecOpen; EvNeAACDecInit2;
                   EvPrint "Decoder: Starting for %d %d\n"]
                  ++ seek_trace ++ [EvOpenPipe] in
     (pipe_fd env = None /\
      tr = setup ++ [EvPerror "Decoder: Failed to open pipe";
                     EvNeAACDecClose; EvMp4Close]) \/
     (exists fd body,
        pipe_fd env = Some fd /\ frame_loop w fd (frames env) = Done body /\
        tr = setup ++ body ++
             [EvClose fd; EvNeAACDecClose; EvMp4Close;
              EvPrint "Decoder: Thread exiting.\n"])).
Proof.
  unfold decode_loop.
  destruct (opened env) as [cfg|]; cbn [prepend];
    [|intros H; injection H as <-; left; split; reflexivity].
  destruct (faad_open env); cbn [negb prepend];
    [|intros H; injection H as <-; right; left; exists cfg;
      repeat split; reflexivity].
  destruct (init2 env) as [[samplerate channels]|]; cbn [prepend];
    [|intros H; injection H as <-; right; right; left; exists cfg;
      repeat split; reflexivity].
  destruct (seek_if_requested w d cfg samplerate (seek_ok env))
    as [seek_trace| |] eqn:Hseek; cbn [prepend]; try discriminate.
  intros Hrun. right. right. right.
  exists cfg, samplerate, channels, seek_trace.
  repeat (split; [first [reflexivity | exact Hseek]|]). cbv zeta. revert Hrun.
  destruct (pipe_fd env) as [fd|]; cbn [prepend].
  - destruct (frame_loop w fd (frames env)) as [body| |] eqn:Hloop;
      cbn [prepend]; try discriminate.
    intros Hrun. injection Hrun as <-. right. exists fd, body.
    repeat (split; [first [reflexivity | exact Hloop]|]).
    cbn [app]. rewrite <- !app_assoc. reflexivity.
  - intros Hrun. injection Hrun as <-. left. split; [reflexivity|].
    cbn [app]. rewrite <- !app_assoc. reflexivity.
Qed.

Ltac count_parts :=
  repeat rewrite count_app;
  repeat match goal with
         | H : forallb is_loop_event ?l = true |- context [count ?p ?l] =>
             rewrite (count_none p is_loop_event l)
               by (first [exact H | intros []; cbn; congruence])
         | H : forallb is_seek_block_event ?l = true |- context [count ?p ?l] =>
             rewrite (count_none p is_seek_block_event l)
               by (first [exact H | intros []; cbn; congruence])
         end.

(** Case analysis of a membership in a concrete trace, for an [EvClose]. *)
Ltac close_in H :=
  cbn in H;
  repeat match goal with
         | K : _ \/ _ |- _ => destruct K as [K | K]
         | K : False |- _ => contradiction
         | K : EvClose _ = EvClose _ |- _ => injection K as <-
         | K : _ = EvClose _ |- _ => discriminate K
         end;
  try reflexivity.

(** X25.  Every run of the worker that returns has released what it acquired, on
    every exit path: [mp4read_close] is called once exactly when
    [mp4read_open] succeeded, [NeAACDecClose] once exactly when
    [NeAACDecOpen] also gave a handle, and [close] once, on the descriptor
    [open] answered, exactly when the pipe was opened. *)
Theorem decode_loop_releases w d env tr :
  decode_loop w d env = Done tr ->
  count is_mp4_close tr =
    (match opened env with Some _ => 1 | None => 0 end)%nat /\
  count is_faad_close tr =
    (match opened env with
     | Some _ => if faad_open env then 1 else 0
     | None => 0
     end)%nat /\
  count is_fd_close tr =
    (match pipe_fd env with
     | Some _ => count is_open_pipe tr
     | None => 0
     end)%nat /\
  (forall fd, In (EvClose fd) tr -> pipe_fd env = Some fd).
Proof.
  intros Hrun.
  destruct (decode_loop_cases w d env tr Hrun)
    as [(Ho & ->) | [(cfg & Ho & Hf & ->) | [(cfg & Ho & Hf & Hi & ->)
       | (cfg & sr & ch & str & Ho & Hf & Hi & Hseek & Hrest)]]];
    rewrite ?Ho, ?Hf.
  - repeat split; try (destruct (pipe_fd env); reflexivity).
    intros fd H. close_in H.
  - repeat split; try (destruct (pipe_fd env); reflexivity).
    intros fd H. close_in H.
  - repeat split; try (destruct (pipe_fd env); reflexivity).
    intros fd H. close_in H.
  - pose proof (seek_block_events _ _ _ _ _ _ Hseek) as Hstr.
    cbv zeta in Hrest.
    destruct Hrest as [(Hp & ->) | (fd & body & Hp & Hloop & ->)]; rewrite Hp.
    + repeat split; try (count_parts; reflexivity).
      intros fd H. rewrite !in_app_iff in H.
      rewrite forallb_forall in Hstr.
      close_in H; specialize (Hstr _ H); discriminate Hstr.
    + pose proof (frame_loop_events _ _ _ _ Hloop) as Hbody.
      repeat split; try (count_parts; reflexivity).
      intros fd' H. rewrite !in_app_iff in H.
      rewrite forallb_forall in Hstr, Hbody.
      close_in H;
        first [specialize (Hstr _ H); discriminate Hstr
              | specialize (Hbody _ H); discriminate Hbody].
Qed.

Lemma decode_loop_releases_witness :
  let env := mkLoop (Some (Mp4.mk None None None None 44100 2048000 2000))
                    true (Some (44100, 2)) (fun _ => true) (Some 3)
                    [mkFrame false true 0 2048 (-1) CInt.EPIPE] in
  exists tr,
    decode_loop 32 (mk "a.m4a" 0 false true 9) env = Done tr /\
    count is_mp4_close tr = 1%nat /\ count is_faad_close tr = 1%nat /\
    count is_fd_close tr = 1%nat.
Proof.
  intros env. eexists. split; [reflexivity|].
  destruct (decode_loop_releases 32 (mk "a.m4a" 0 false true 9) env _ eq_refl)
    as (H1 & H2 & H3 & _).
  split; [exact H1 | split; [exact H2 | exact H3]].
Defined.

Lemma seek_block_not_starved w d cfg samplerate seek_ok :
  seek_if_requested w d cfg samplerate seek_ok <> Starved.
Proof.
  unfold seek_if_requested.
  destruct (0 <? start_time d); [|discriminate].
  destruct (target_frame w (start_time d) samplerate (samples_per_frame cfg))
    as [target|]; [|discriminate].
  destruct (target <? Mp4.frame_nsamples cfg), (seek_ok target); discriminate.
Qed.

(** X26.  When a step of the set-up fails, the worker returns without reading
    or writing a single frame, and reports the failure: so it is when the
    file does not open, when FAAD2 gives no handle or rejects the
    configuration, and when the pipe does not open after a seek block whose
    cast has a defined value. *)
Theorem decode_loop_setup_failure w d env :
  opened env = None \/ faad_open env = false \/ init2 env = None \/
  (pipe_fd env = None /\
   forall cfg samplerate channels,
     opened env = Some cfg -> init2 env = Some (samplerate, channels) ->
     seek_if_requested w d cfg samplerate (seek_ok env) <> Undefined) ->
  exists tr,
    decode_loop w d env = Done tr /\
    count is_frame_read tr = 0%nat /\
    count is_write tr = 0%nat /\
    (1 <= count is_error_log tr)%nat.
Proof.
  intros Hfail. unfold decode_loop.
  destruct (opened env) as [cfg|] eqn:Ho; cbn [prepend];
    [|eexists; split; [reflexivity|]; repeat split; cbn; lia].
  destruct (faad_open env) eqn:Hf; cbn [negb prepend];
    [|eexists; split; [reflexivity|]; repeat split; cbn; lia].
  destruct (init2 env) as [[sr ch]|] eqn:Hi; cbn [prepend];
    [|eexists; split; [reflexivity|]; repeat split; cbn; lia].
  destruct Hfail as [H | [H | [H | [Hp Hdef]]]]; try discriminate H.
  specialize (Hdef cfg sr ch eq_refl eq_refl).
  destruct (seek_if_requested w d cfg sr (seek_ok env)) as [str| |] eqn:Hseek.
  - pose proof (seek_block_events _ _ _ _ _ _ Hseek) as Hstr.
    rewrite Hp. cbn [prepend]. eexists. split; [reflexivity|].
    repeat split; try (count_parts; reflexivity).
    rewrite !count_app. cbn. lia.
  - contradiction.
  - destruct (seek_block_not_starved _ _ _ _ _ Hseek).
Qed.

Lemma decode_loop_setup_failure_witness :
  let env := mkLoop (Some (Mp4.mk None None None None 44100 2048000 2000))
                    true (Some (44100, 2)) (fun _ => true) None [] in
  exists tr,
    decode_loop 32 (mk "a.m4a" 0 false true 9) env = Done tr /\
    count is_frame_read tr = 0%nat /\ count is_write tr = 0%nat.
Proof.
  intros env.
  destruct (decode_loop_setup_failure 32 (mk "a.m4a" 0 false true 9) env)
    as (tr & Hrun & H1 & H2 & _).
  - right. right. right. split; [reflexivity|].
    intros cfg samplerate channels _ _. cbn. discriminate.
  - exists tr. split; [exact Hrun | split; [exact H1 | exact H2]].
Defined.

(** X27.  A run with a start time of zero (or less) that gets past the
    initialisation of the decoder returns, once the pipe does not open or
    some iteration ends the frame loop; it seeks once, to frame 0, before it
    does anything else, and never again. *)
Theorem decode_loop_from_beginning w d env cfg samplerate channels :
  start_time d <= 0 ->
  opened env = Some cfg ->
  faad_open env = true ->
  init2 env = Some (samplerate, channels) ->
  pipe_fd env = None \/ existsb ends_loop (frames env) = true ->
  let setup := [EvPrint "Decoder: Starting for %s\n"; EvMp4Open; EvNeAACDecOpen;
                EvNeAACDecInit2; EvPrint "Decoder: Starting for %d %d\n"] in
  seek_if_requested w d cfg samplerate (seek_ok env) = Done [EvMp4Seek 0] /\
  exists rest,
    decode_loop w d env = Done (setup ++ [EvMp4Seek 0] ++ rest) /\
    count is_seek rest = 0%nat /\
    count is_seek (setup ++ [EvMp4Seek 0] ++ rest) = 1%nat.
Proof.
  intros Hs Ho Hf Hi Hend setup.
  assert (Hseek : seek_if_requested w d cfg samplerate (seek_ok env) =
                  Done [EvMp4Seek 0]).
  { unfold seek_if_requested. apply Z.ltb_ge in Hs. rewrite Hs. reflexivity. }
  split; [exact Hseek|].
  destruct (decode_loop_returns w d env cfg samplerate channels _
              Ho Hf Hi Hseek Hend) as (rest & Hrun & Hrest).
  exists rest. split; [exact Hrun|]. split; [exact Hrest|].
  rewrite !count_app, Hrest. reflexivity.
Qed.

Lemma decode_loop_from_beginning_witness :
  let cfg := Mp4.mk None None None None 44100 2048000 2000 in
  let env := mkLoop (Some cfg) true (Some (44100, 2)) (fun _ => true) (Some 3)
                    [mkFrame true true 0 0 0 0] in
  exists tr,
    decode_loop 32 (mk "a.m4a" 0 false true 9) env = Done tr /\
    count is_seek tr = 1%nat.
Proof.
  intros cfg env.
  assert (Hs : start_time (mk "a.m4a" 0 false true 9) <= 0) by (cbn; lia).
  destruct (decode_loop_from_beginning 32 (mk "a.m4a" 0 false true 9) env
              cfg 44100 2 Hs eq_refl eq_refl eq_refl (or_intror eq_refl))
    as (_ & rest & Hrun & _ & Hc).
  eexists. split; [exact Hrun | exact Hc].
Defined.

(** ** The target frame *)

(** X28.  Within the bounds where the [double] computation is exact, the target
    frame is the frame that contains the requested sample: it starts at or
    before it, and the next frame starts after it. *)
Theorem target_frame_contains_start w s r c :
  0 < s < 2 ^ 53 -> 0 <= r -> s * r < 2 ^ 53 -> 0 < c < 2 ^ 53 ->
  s * r / c < 2 ^ w ->
  exists target,
    target_frame w s r c = Some target /\
    target * c <= s * r < (target + 1) * c.
Proof.
  intros Hs Hr Hsr Hc Hw. exists (s * r / c).
  split; [apply target_frame_exact; assumption|].
  pose proof (Z.div_mod (s * r) c ltac:(lia)) as Hdm.
  pose proof (Z.mod_pos_bound (s * r) c ltac:(lia)) as Hm.
  nia.
Qed.

Lemma target_frame_contains_start_witness :
  exists target,
    target_frame 32 30 44100 1024 = Some target /\
    target * 1024 <= 30 * 44100 < (target + 1) * 1024.
Proof.
  apply (target_frame_contains_start 32 30 44100 1024); try lia.
  vm_compute. reflexivity.
Defined.

(** X29.  Within the same bounds, a later start time never gives an earlier
    target frame. *)
Theorem target_frame_monotone w s1 s2 r c :
  0 < s1 -> s1 <= s2 -> s2 < 2 ^ 53 -> 0 <= r -> s2 * r < 2 ^ 53 ->
  0 < c < 2 ^ 53 -> s2 * r / c < 2 ^ w ->
  exists t1 t2,
    target_frame w s1 r c = Some t1 /\
    target_frame w s2 r c = Some t2 /\
    t1 <= t2.
Proof.
  intros Hs1 Hle Hs2 Hr Hsr Hc Hw.
  assert (Hmono : s1 * r / c <= s2 * r / c)
    by (apply Z.div_le_mono; nia).
  exists (s1 * r / c), (s2 * r / c). split; [|split; [|exact Hmono]].
  - apply target_frame_exact; try lia. nia.
  - apply target_frame_exact; try lia.
Qed.

Lemma target_frame_monotone_witness :
  exists t1 t2,
    target_frame 32 30 44100 1024 = Some t1 /\
    target_frame 32 60 44100 1024 = Some t2 /\
    t1 <= t2.
Proof.
  apply (target_frame_monotone 32 30 60 44100 1024); try lia.
  vm_compute. reflexivity.
Defined.
